(** * MoneyTrack: shared-ledger settlement engine and budget alerts

    A shallow embedding of the model methods of [shared_ledger/models.py]
    and [budgets/models.py].

    - Database tables are lists of rows, in primary-key order.
    - A model method is a computation in a state-and-exception monad over
      the tables.  The models open no transaction: a write is committed
      when it is made, and what was saved before an exception is raised
      stays saved.
    - [timezone.now()] reads a clock that belongs to the environment; each
      read consumes one reading, so two reads in one method may differ.
    - A [DecimalField(max_digits=15, decimal_places=2)] value is an integer
      number of hundredths ([Z]). *)

From Stdlib Require Import ZArith QArith List Bool Lia String.
From stdpp Require Import base decidable option list gmap.
Import ListNotations.

Local Open Scope Z_scope.

(** ** Exceptions, outcomes, environment *)

Inductive Exn :=
| DivisionByZero          (* decimal.DivisionByZero: x / 0 with x nonzero *)
| InvalidOperation        (* decimal.InvalidOperation: 0 / 0 *)
| MultipleObjectsReturned (* QuerySet.get() matched several rows *)
| IntegrityError          (* a unique_together constraint refused an INSERT *)
| ValueError.             (* a relation was used on an unsaved instance *)

Inductive Outcome (A : Type) :=
| Returned (a : A)
| Raised (e : Exn).
Arguments Returned {A} a.
Arguments Raised {A} e.

Definition Time := Z.

Record Env (T : Type) := mkEnv {
  clock : nat -> Time;   (* the successive readings of timezone.now() *)
  ticks : nat;           (* how many readings have been consumed *)
  tables : T
}.
Arguments mkEnv {T} clock ticks tables.
Arguments clock {T} e.
Arguments ticks {T} e.
Arguments tables {T} e.

Definition M (T A : Type) := Env T -> Outcome A * Env T.

Definition ret {T A} (a : A) : M T A := fun env => (Returned a, env).

Definition bind {T A B} (m : M T A) (k : A -> M T B) : M T B :=
  fun env =>
    match m env with
    | (Returned a, env') => k a env'
    | (Raised e, env') => (Raised e, env')
    end.

Definition raise {T A} (e : Exn) : M T A := fun env => (Raised e, env).

Definition query {T A} (q : T -> A) : M T A :=
  fun env => (Returned (q (tables env)), env).

Definition modify {T} (f : T -> T) : M T unit :=
  fun env => (Returned tt, mkEnv (clock env) (ticks env) (f (tables env))).

Definition timezone_now {T} : M T Time :=
  fun env => (Returned (clock env (ticks env)),
              mkEnv (clock env) (S (ticks env)) (tables env)).

Declare Scope orm_scope.
Delimit Scope orm_scope with orm.
Notation "x <- c1 ;; c2" := (bind c1 (fun x => c2))
  (at level 100, c1 at next level, right associativity) : orm_scope.
Notation "c1 ;; c2" := (bind c1 (fun _ => c2))
  (at level 100, right associativity) : orm_scope.

Fixpoint for_each {T A} (l : list A) (body : A -> M T unit) : M T unit :=
  match l with
  | [] => ret tt
  | x :: l' => bind (body x) (fun _ => for_each l' body)
  end.

(** [Model.save()] on an instance that has a primary key: UPDATE the row
    with that key, INSERT when there is none. *)
Definition upsert {A} (pk : A -> nat) (x : A) (rows : list A) : list A :=
  if existsb (fun y => Nat.eqb (pk y) (pk x)) rows
  then map (fun y => if Nat.eqb (pk y) (pk x) then x else y) rows
  else rows ++ [x].

(** ** Decimal amounts *)

Module Decimal.

(** [c / n] as it reaches a two-decimal-place column.  The Python
    quotient is a [Decimal] correctly rounded to 28 significant digits; on
    save the field quantizes it to two places, rounding half to even.
    [c] counts hundredths, so the stored value is [c / n] rounded to an
    integer, ties to the even neighbour.  (A 15-digit amount leaves at
    least 13 digits after the cents in the 28-digit quotient, so for a
    divisor below [10^12] the first rounding cannot move the quotient
    onto or across a half cent, and the two roundings are this one.) *)
Definition div_quantize (c n : Z) : Z :=
  let q := c / n in
  let r := c mod n in
  if 2 * r <? n then q
  else if n <? 2 * r then q + 1
  else if Z.even q then q else q + 1.

Definition sum (l : list Z) : Z := fold_right Z.add 0 l.

End Decimal.

(** ** Shared ledger: rows *)

Inductive Role := RoleAdmin | RoleMember | RoleViewer.

Inductive MemberStatus :=
| MemberActive | MemberInvited | MemberInactive | MemberRemoved.

Inductive SplitMethod := Equal | Exact | Percentage | Shares.

Inductive ExpenseStatus :=
| ExpensePending | ExpenseApproved | ExpenseRejected | ExpenseSettled.

Inductive InviteStatus :=
| InvitePending | InviteAccepted | InviteDeclined | InviteExpired
| InviteCancelled.

#[global] Instance MemberStatus_eq_dec : EqDecision MemberStatus.
Proof. solve_decision. Defined.
#[global] Instance SplitMethod_eq_dec : EqDecision SplitMethod.
Proof. solve_decision. Defined.
#[global] Instance InviteStatus_eq_dec : EqDecision InviteStatus.
Proof. solve_decision. Defined.
#[global] Instance Role_eq_dec : EqDecision Role.
Proof. solve_decision. Defined.

Record SharedLedgerMember := mkMember {
  member_pk : nat;
  member_ledger : nat;
  member_user : nat;
  member_role : Role;
  member_status : MemberStatus;
  member_invited_by : option nat;
  member_invited_at : option Time;
  member_joined_at : Time
}.

Record SharedExpense := mkExpense {
  expense_pk : option nat;        (* None until the first save *)
  expense_ledger : nat;
  expense_amount : Z;
  expense_paid_by : nat;          (* a user *)
  expense_split_method : SplitMethod;
  expense_status : ExpenseStatus
}.

(** The [percentage] column of a split is derived from a float and read by
    no method; it is left out. *)
Record SharedExpenseSplit := mkSplit {
  split_pk : nat;
  split_expense : nat;
  split_member : nat;
  split_amount : Z;
  split_shares : nat;
  is_settled : bool;
  settled_at : option Time;
  settlement_method : string
}.

Record SharedPayment := mkPayment {
  payment_pk : nat;
  payment_ledger : nat;
  from_member : nat;
  to_member : nat;
  payment_amount : Z;
  payment_method : string;
  is_confirmed : bool;
  confirmed_by : option nat;
  confirmed_at : option Time
}.

Record SharedLedgerInvite := mkInvite {
  invite_pk : nat;
  invite_ledger : nat;
  invite_invited_by : nat;
  invited_user : option nat;
  proposed_role : Role;
  invite_status : InviteStatus;
  expires_at : Time;
  responded_at : option Time;
  invite_created_at : Time
}.

(** The tables.  [related_splits] is the many-to-many table between
    payments and splits, as (payment, split) pairs; the [_seq] fields are
    the next auto-increment keys. *)
Record Tables := mkTables {
  members : list SharedLedgerMember;
  expenses : list SharedExpense;
  splits : list SharedExpenseSplit;
  payments : list SharedPayment;
  related_splits : list (nat * nat);
  invites : list SharedLedgerInvite;
  member_seq : nat;
  expense_seq : nat;
  split_seq : nat
}.

Definition set_members (t : Tables) (l : list SharedLedgerMember) (n : nat) :=
  mkTables l (expenses t) (splits t) (payments t) (related_splits t)
           (invites t) n (expense_seq t) (split_seq t).
Definition set_expenses (t : Tables) (l : list SharedExpense) (n : nat) :=
  mkTables (members t) l (splits t) (payments t) (related_splits t)
           (invites t) (member_seq t) n (split_seq t).
Definition set_splits (t : Tables) (l : list SharedExpenseSplit) (n : nat) :=
  mkTables (members t) (expenses t) l (payments t) (related_splits t)
           (invites t) (member_seq t) (expense_seq t) n.
Definition set_payments (t : Tables) (l : list SharedPayment) :=
  mkTables (members t) (expenses t) (splits t) l (related_splits t)
           (invites t) (member_seq t) (expense_seq t) (split_seq t).
Definition set_invites (t : Tables) (l : list SharedLedgerInvite) :=
  mkTables (members t) (expenses t) (splits t) (payments t)
           (related_splits t) l (member_seq t) (expense_seq t) (split_seq t).

Local Open Scope orm_scope.

(** ** Shared ledger: queries *)

Definition is_active (m : SharedLedgerMember) : bool :=
  match member_status m with MemberActive => true | _ => false end.

Definition is_equal (e : SharedExpense) : bool :=
  match expense_split_method e with Equal => true | _ => false end.

Definition is_pending (i : SharedLedgerInvite) : bool :=
  match invite_status i with InvitePending => true | _ => false end.

Definition has_pk (o : option nat) (k : nat) : bool :=
  match o with Some j => Nat.eqb j k | None => false end.

(** [ledger.members.all()] *)
Definition ledger_members (ledger : nat) (t : Tables) :=
  List.filter (fun m => Nat.eqb (member_ledger m) ledger) (members t).

(** [ledger.members.filter(status='active')] *)
Definition active_members (ledger : nat) (t : Tables) :=
  List.filter (fun m => Nat.eqb (member_ledger m) ledger && is_active m)
              (members t).

(** [ledger.expenses.all()] *)
Definition ledger_expenses (ledger : nat) (t : Tables) :=
  List.filter (fun e => Nat.eqb (expense_ledger e) ledger) (expenses t).

(** The rows of one (expense, member) pair. *)
Definition same_pair (expense member : nat) (s : SharedExpenseSplit) : bool :=
  Nat.eqb (split_expense s) expense && Nat.eqb (split_member s) member.

(** [expense.splits.filter(member=member)] *)
Definition expense_splits_of (expense : SharedExpense)
    (member : SharedLedgerMember) (t : Tables) :=
  List.filter (fun s => has_pk (expense_pk expense) (split_expense s)
                        && Nat.eqb (split_member s) (member_pk member))
              (splits t).

(** [payment.related_splits.all()] *)
Definition related_splits_all (self : SharedPayment) (t : Tables) :=
  List.filter
    (fun s => existsb (fun r => Nat.eqb (fst r) (payment_pk self)
                                && Nat.eqb (snd r) (split_pk s))
                      (related_splits t))
    (splits t).

(** ** Shared ledger: writes of the ORM *)

(** [Decimal / int], kept at the precision of the column that stores it. *)
Definition truediv {T} (c n : Z) : M T Z :=
  if n =? 0
  then (if c =? 0 then raise InvalidOperation else raise DivisionByZero)
  else ret (Decimal.div_quantize c n).

(** [SharedExpenseSplit.objects.create(...)]: the new row takes the column
    defaults (not settled, no timestamp, empty method);
    [unique_together = ['expense', 'member']] refuses a second row of a
    pair. *)
Definition SharedExpenseSplit_create (expense member : nat) (amount : Z)
    (shares : nat) : M Tables SharedExpenseSplit :=
  fun env =>
    let t := tables env in
    if existsb (same_pair expense member) (splits t)
    then (Raised IntegrityError, env)
    else
      let s := mkSplit (split_seq t) expense member amount shares
                       false None EmptyString in
      (Returned s,
       mkEnv (clock env) (ticks env)
             (set_splits t (splits t ++ [s]) (S (split_seq t)))).

(** [SharedExpenseSplit.objects.get_or_create(expense=, member=,
    defaults=)]: the defaults are used only when no row is found. *)
Definition SharedExpenseSplit_get_or_create (expense member : nat)
    (amount : Z) (shares : nat) : M Tables (SharedExpenseSplit * bool) :=
  found <- query (fun t => List.filter (same_pair expense member) (splits t)) ;;
  match found with
  | [] => s <- SharedExpenseSplit_create expense member amount shares ;;
          ret (s, true)
  | [s] => ret (s, false)
  | _ => raise MultipleObjectsReturned
  end.

(** [split.save()] *)
Definition SharedExpenseSplit_save (self : SharedExpenseSplit)
    : M Tables unit :=
  modify (fun t => set_splits t (upsert split_pk self (splits t)) (split_seq t)).

(** [payment.save()] *)
Definition SharedPayment_save (self : SharedPayment) : M Tables unit :=
  modify (fun t => set_payments t (upsert payment_pk self (payments t))).

(** [invite.save()] *)
Definition SharedLedgerInvite_save (self : SharedLedgerInvite)
    : M Tables unit :=
  modify (fun t => set_invites t (upsert invite_pk self (invites t))).

(** [super().save()] of an expense: INSERT with the next key when the
    instance has none, else UPDATE the row of its key (INSERT when there is
    no such row).  Returns the instance, whose [pk] is now set. *)
Definition Model_save (self : SharedExpense) : M Tables SharedExpense :=
  fun env =>
    let t := tables env in
    match expense_pk self with
    | None =>
        let self' := mkExpense (Some (expense_seq t)) (expense_ledger self)
                       (expense_amount self) (expense_paid_by self)
                       (expense_split_method self) (expense_status self) in
        (Returned self',
         mkEnv (clock env) (ticks env)
               (set_expenses t (expenses t ++ [self']) (S (expense_seq t))))
    | Some k =>
        let rows :=
          if existsb (fun e => has_pk (expense_pk e) k) (expenses t)
          then map (fun e => if has_pk (expense_pk e) k then self else e)
                   (expenses t)
          else expenses t ++ [self] in
        (Returned self,
         mkEnv (clock env) (ticks env) (set_expenses t rows (expense_seq t)))
    end.

(** [SharedLedgerMember.objects.create(ledger=, user=, role=, invited_by=,
    invited_at=)]: [status] defaults to active and [joined_at] to
    [timezone.now]; [unique_together = ['ledger', 'user']]. *)
Definition SharedLedgerMember_create (ledger user : nat) (role : Role)
    (invited_by : option nat) (invited_at : option Time)
    : M Tables SharedLedgerMember :=
  joined <- timezone_now ;;
  fun env =>
    let t := tables env in
    if existsb (fun m => Nat.eqb (member_ledger m) ledger
                         && Nat.eqb (member_user m) user) (members t)
    then (Raised IntegrityError, env)
    else
      let m := mkMember (member_seq t) ledger user role MemberActive
                        invited_by invited_at joined in
      (Returned m,
       mkEnv (clock env) (ticks env)
             (set_members t (members t ++ [m]) (S (member_seq t)))).

(** ** Shared ledger: model methods *)

(** [SharedExpense.create_equal_splits] *)
Definition create_equal_splits (self : SharedExpense) : M Tables unit :=
  active <- query (active_members (expense_ledger self)) ;;
  amount_per_person <-
    truediv (expense_amount self) (Z.of_nat (length active)) ;;
  for_each active (fun member =>
    match expense_pk self with
    | None => raise ValueError
    | Some pk =>
        _ <- SharedExpenseSplit_get_or_create pk (member_pk member)
               amount_per_person 1 ;;
        ret tt
    end).

(** [SharedExpense.save]; the instance it returns is [self] after the
    call. *)
Definition SharedExpense_save (self : SharedExpense) : M Tables SharedExpense :=
  let is_new := match expense_pk self with None => true | Some _ => false end in
  self' <- Model_save self ;;
  if is_new && is_equal self'
  then (create_equal_splits self' ;; ret self')
  else ret self'.

(** [SharedExpenseSplit.settle] *)
Definition settle (self : SharedExpenseSplit) (method : string)
    : M Tables unit :=
  now <- timezone_now ;;
  SharedExpenseSplit_save
    (mkSplit (split_pk self) (split_expense self) (split_member self)
             (split_amount self) (split_shares self)
             true (Some now) method).

(** [SharedPayment.confirm_payment] *)
Definition confirm_payment (self : SharedPayment) (confirmed_by_user : nat)
    : M Tables unit :=
  now <- timezone_now ;;
  let self' :=
    mkPayment (payment_pk self) (payment_ledger self) (from_member self)
              (to_member self) (payment_amount self) (payment_method self)
              true (Some confirmed_by_user) (Some now) in
  SharedPayment_save self' ;;
  related <- query (related_splits_all self') ;;
  for_each related (fun split => settle split (payment_method self')).

(** [SharedLedgerInvite.accept]; [and] does not read the clock when the
    status is not pending. *)
Definition accept (self : SharedLedgerInvite) (user : nat) : M Tables bool :=
  if is_pending self then
    now <- timezone_now ;;
    if now <=? expires_at self then
      responded <- timezone_now ;;
      let self' :=
        mkInvite (invite_pk self) (invite_ledger self)
                 (invite_invited_by self) (Some user) (proposed_role self)
                 InviteAccepted (expires_at self) (Some responded)
                 (invite_created_at self) in
      SharedLedgerInvite_save self' ;;
      _ <- SharedLedgerMember_create (invite_ledger self') user
             (proposed_role self') (Some (invite_invited_by self'))
             (Some (invite_created_at self')) ;;
      ret true
    else ret false
  else ret false.

(** [SharedLedgerInvite.decline] *)
Definition decline (self : SharedLedgerInvite) : M Tables bool :=
  if is_pending self then
    responded <- timezone_now ;;
    SharedLedgerInvite_save
      (mkInvite (invite_pk self) (invite_ledger self)
                (invite_invited_by self) (invited_user self)
                (proposed_role self) InviteDeclined (expires_at self)
                (Some responded) (invite_created_at self)) ;;
    ret true
  else ret false.

(** [SharedLedgerInvite.is_expired] *)
Definition is_expired (self : SharedLedgerInvite) : M Tables bool :=
  now <- timezone_now ;;
  ret (expires_at self <? now).

(** [SharedLedger.calculate_balances]: the dict it returns, keyed by user. *)
Record Balance := mkBalance {
  balance_user : nat;
  total_paid : Z;
  total_share : Z;
  balance : Z
}.

Definition member_total_paid (ledger : nat) (member : SharedLedgerMember)
    (t : Tables) : Z :=
  Decimal.sum
    (map expense_amount
         (List.filter (fun e => Nat.eqb (expense_paid_by e) (member_user member))
                      (ledger_expenses ledger t))).

Definition member_total_share (ledger : nat) (member : SharedLedgerMember)
    (t : Tables) : Z :=
  fold_left
    (fun total_share expense =>
       match head (expense_splits_of expense member t) with
       | Some member_share => total_share + split_amount member_share
       | None => total_share
       end)
    (ledger_expenses ledger t) 0.

Definition calculate_balances (ledger : nat) (t : Tables) : gmap nat Balance :=
  fold_left
    (fun balances member =>
       let paid := member_total_paid ledger member t in
       let share := member_total_share ledger member t in
       <[member_user member :=
           mkBalance (member_user member) paid share (paid - share)]> balances)
    (ledger_members ledger t) ∅.

(** ** Budgets *)

Module Budgets.

Inductive TransactionType := Income | Expense | Transfer.

Record Transaction := mkTransaction {
  txn_user : nat;
  txn_type : TransactionType;
  txn_amount : Z;
  txn_category : option nat;
  transaction_date : Time
}.

(** [percentage_used] is a float column; the ratios below are kept exact
    as rationals. *)
Record BudgetItem := mkItem {
  item_pk : nat;
  item_budget : nat;
  item_category : nat;
  budgeted_amount : Z;
  spent_amount : Z;
  item_remaining_amount : Z;
  item_percentage_used : Q
}.

(** A budget with the dates of its period. *)
Record Budget := mkBudget {
  budget_pk : nat;
  budget_user : nat;
  period_start_date : Time;
  period_end_date : Time;
  total_budget_amount : Z;
  alert_threshold_percentage : Z;
  total_spent : Z;
  remaining_amount : Z;
  percentage_used : Q;
  last_calculated_at : option Time;
  alert_sent_at : option Time
}.

Record BudgetTables := mkBudgetTables {
  budgets : list Budget;
  budget_items : list BudgetItem;
  transactions : list Transaction
}.

Fixpoint for_fold {T A S} (l : list A) (acc : S) (body : S -> A -> M T S)
    : M T S :=
  match l with
  | [] => ret acc
  | x :: l' => bind (body acc x) (fun acc' => for_fold l' acc' body)
  end.

(** [(spent / budgeted * 100) if budgeted > 0 else 0] *)
Definition percent_of (spent budgeted : Z) : Q :=
  if 0 <? budgeted
  then Qmult (Qdiv (inject_Z spent) (inject_Z budgeted)) (inject_Z 100)
  else inject_Z 0.

Definition is_expense (x : Transaction) : bool :=
  match txn_type x with Expense => true | _ => false end.

(** [Transaction.objects.filter(user=, category=, type='expense',
    transaction_date__range=[start, end])] *)
Definition item_transactions (self : Budget) (item : BudgetItem)
    (t : BudgetTables) : list Transaction :=
  List.filter
    (fun x => Nat.eqb (txn_user x) (budget_user self)
              && has_pk (txn_category x) (item_category item)
              && is_expense x
              && (period_start_date self <=? transaction_date x)
              && (transaction_date x <=? period_end_date self))
    (transactions t).

Definition BudgetItem_save (item : BudgetItem) : M BudgetTables unit :=
  modify (fun t => mkBudgetTables (budgets t)
                     (upsert item_pk item (budget_items t))
                     (transactions t)).

Definition Budget_save (self : Budget) : M BudgetTables unit :=
  modify (fun t => mkBudgetTables (upsert budget_pk self (budgets t))
                     (budget_items t) (transactions t)).

(** [Budget.calculate_spent_amount]; returns [self] after the call and
    the amount. *)
Definition calculate_spent_amount (self : Budget)
    : M BudgetTables (Budget * Z) :=
  items <- query (fun t => List.filter
                     (fun i => Nat.eqb (item_budget i) (budget_pk self))
                     (budget_items t)) ;;
  spent <- for_fold items 0 (fun spent item =>
    txns <- query (item_transactions self item) ;;
    let item_spent := Decimal.sum (map txn_amount txns) in
    BudgetItem_save
      (mkItem (item_pk item) (item_budget item) (item_category item)
              (budgeted_amount item) item_spent
              (budgeted_amount item - item_spent)
              (percent_of item_spent (budgeted_amount item))) ;;
    ret (spent + item_spent)) ;;
  now <- timezone_now ;;
  let self' :=
    mkBudget (budget_pk self) (budget_user self) (period_start_date self)
             (period_end_date self) (total_budget_amount self)
             (alert_threshold_percentage self)
             spent (total_budget_amount self - spent)
             (percent_of spent (total_budget_amount self))
             (Some now) (alert_sent_at self) in
  Budget_save self' ;;
  ret (self', spent).

(** [Budget.check_alert_threshold]; returns [self] after the call and
    the boolean. *)
Definition check_alert_threshold (self : Budget)
    : M BudgetTables (Budget * bool) :=
  if Qle_bool (inject_Z (alert_threshold_percentage self))
              (percentage_used self)
     && match alert_sent_at self with None => true | Some _ => false end
  then
    now <- timezone_now ;;
    let self' :=
      mkBudget (budget_pk self) (budget_user self) (period_start_date self)
               (period_end_date self) (total_budget_amount self)
               (alert_threshold_percentage self) (total_spent self)
               (remaining_amount self) (percentage_used self)
               (last_calculated_at self) (Some now) in
    Budget_save self' ;;
    ret (self', true)
  else ret (self, false).

(** The life of one budget: the methods of the model called one after
    the other on the instance, each on what the previous one left, with
    the spending statistic possibly rewritten in between. *)
Inductive Call :=
| CallCalculateSpentAmount
| CallCheckAlertThreshold
| CallSetPercentageUsed (p : Q).

Definition set_percentage_used (self : Budget) (p : Q) : Budget :=
  mkBudget (budget_pk self) (budget_user self) (period_start_date self)
           (period_end_date self) (total_budget_amount self)
           (alert_threshold_percentage self) (total_spent self)
           (remaining_amount self) p
           (last_calculated_at self) (alert_sent_at self).

(** Runs the calls; returns the instance at the end and what each
    [check_alert_threshold] answered, in order. *)
Fixpoint run (calls : list Call) (self : Budget)
    : M BudgetTables (Budget * list bool) :=
  match calls with
  | [] => ret (self, [])
  | CallCalculateSpentAmount :: rest =>
      r <- calculate_spent_amount self ;;
      run rest (fst r)
  | CallCheckAlertThreshold :: rest =>
      r <- check_alert_threshold self ;;
      r' <- run rest (fst r) ;;
      ret (fst r', snd r :: snd r')
  | CallSetPercentageUsed p :: rest =>
      Budget_save (set_percentage_used self p) ;;
      run rest (set_percentage_used self p)
  end.

End Budgets.

(** ** Budget goals *)

Module Goals.

Inductive GoalStatus := GoalActive | GoalPaused | GoalCompleted | GoalCancelled.

(** A calendar date; [date_lt] is the order of [datetime.date]. *)
Record Date := mkDate { year : Z; month : Z; day : Z }.


Record BudgetGoal := mkGoal {
  goal_pk : nat;
  target_amount : Z;
  current_amount : Z;
  target_date : Date;
  completion_date : option Date;
  goal_status : GoalStatus
}.

Record BudgetGoalContribution := mkContribution {
  contribution_pk : nat;
  contribution_goal : nat;
  contribution_amount : Z;
  contribution_description : string;
  contribution_date : Time
}.

Record GoalTables := mkGoalTables {
  goals : list BudgetGoal;
  contributions : list BudgetGoalContribution;
  contribution_seq : nat
}.

(** A [DecimalField(max_digits=15, decimal_places=2)] holds fewer than
    [10^15] hundredths; quantizing a larger value on save raises
    [decimal.InvalidOperation]. *)
Definition fits (c : Z) : bool := Z.abs c <? 10 ^ 15.

(** [goal.save()] *)
Definition BudgetGoal_save (self : BudgetGoal) : M GoalTables unit :=
  if fits (target_amount self) && fits (current_amount self)
  then modify (fun t => mkGoalTables (upsert goal_pk self (goals t))
                          (contributions t) (contribution_seq t))
  else raise InvalidOperation.

(** [BudgetGoalContribution.objects.create(goal=, amount=, description=)];
    [contribution_date] defaults to [timezone.now]. *)
Definition BudgetGoalContribution_create (goal : nat) (amount : Z)
    (description : string) : M GoalTables BudgetGoalContribution :=
  date <- timezone_now ;;
  if fits amount then
    fun env =>
      let t := tables env in
      let c := mkContribution (contribution_seq t) goal amount description date in
      (Returned c,
       mkEnv (clock env) (ticks env)
         (mkGoalTables (goals t) (contributions t ++ [c])
            (S (contribution_seq t))))
  else raise InvalidOperation.

(** [BudgetGoal.remaining_amount] *)
Definition remaining_amount (self : BudgetGoal) : Z :=
  Z.max (target_amount self - current_amount self) 0.

(** [BudgetGoal.progress_percentage]; the ratio is kept exact. *)
Definition progress_percentage (self : BudgetGoal) : Q :=
  if 0 <? target_amount self then
    let progress :=
      Qmult (Qdiv (inject_Z (current_amount self)) (inject_Z (target_amount self)))
            (inject_Z 100) in
    if Qle_bool progress (inject_Z 100) then progress else inject_Z 100
  else inject_Z 0.



(** [BudgetGoal.add_contribution]; returns [self] after the call. *)
Definition add_contribution (date_of : Time -> Date) (self : BudgetGoal)
    (amount : Z) (description : string) : M GoalTables BudgetGoal :=
  let current := current_amount self + amount in
  self' <-
    (if target_amount self <=? current then
       now <- timezone_now ;;
       ret (mkGoal (goal_pk self) (target_amount self) current
                   (target_date self) (Some (date_of now)) GoalCompleted)
     else
       ret (mkGoal (goal_pk self) (target_amount self) current
                   (target_date self) (completion_date self)
                   (goal_status self))) ;;
  BudgetGoal_save self' ;;
  _ <- BudgetGoalContribution_create (goal_pk self') amount description ;;
  ret self'.

(** The total of the contributions recorded for a goal. *)
Definition contributed (goal : nat) (t : GoalTables) : Z :=
  Decimal.sum
    (map contribution_amount
         (List.filter (fun c => Nat.eqb (contribution_goal c) goal)
                      (contributions t))).

End Goals.

(** [BudgetItem.is_over_budget] *)
Definition is_over_budget (self : Budgets.BudgetItem) : bool :=
  Budgets.budgeted_amount self <? Budgets.spent_amount self.

(** [BudgetItem.variance] *)
Definition variance (self : Budgets.BudgetItem) : Z :=
  Budgets.budgeted_amount self - Budgets.spent_amount self.

(** ** Database constraints *)

Definition split_pair (s : SharedExpenseSplit) : nat * nat :=
  (split_expense s, split_member s).

(** [unique_together = ['expense', 'member']] on splits. *)
Definition unique_pairs (t : Tables) : Prop :=
  NoDup (map split_pair (splits t)).

(** Primary keys of members. *)
Definition unique_member_pks (t : Tables) : Prop :=
  NoDup (map member_pk (members t)).

(** [unique_together = ['ledger', 'user']] on members. *)
Definition unique_ledger_user (t : Tables) : Prop :=
  NoDup (map (fun m => (member_ledger m, member_user m)) (members t)).

(** Stored expenses have a primary key, all different. *)
Definition unique_expense_pks (t : Tables) : Prop :=
  NoDup (map expense_pk (expenses t)) /\
  Forall (fun e => expense_pk e <> None) (expenses t).

(** The foreign key of a split is a key the expense sequence has issued. *)
Definition splits_reference_issued (t : Tables) : Prop :=
  Forall (fun s => (split_expense s < expense_seq t)%nat) (splits t).


(** Primary keys of splits. *)
Definition unique_split_pks (t : Tables) : Prop :=
  NoDup (map split_pk (splits t)).

(** The key of a stored expense is one the expense sequence has issued. *)
Definition expense_keys_issued (t : Tables) : Prop :=
  Forall (fun e => match expense_pk e with
                   | Some k => (k < expense_seq t)%nat
                   | None => False
                   end) (expenses t).

(** The key of a stored split is one the split sequence has issued. *)
Definition split_keys_issued (t : Tables) : Prop :=
  Forall (fun s => (split_pk s < split_seq t)%nat) (splits t).

(** The constraints on the table of splits. *)
Definition splits_well_formed (t : Tables) : Prop :=
  unique_pairs t /\ unique_split_pks t /\ split_keys_issued t.

(** ** The operations as transitions *)

Inductive Op :=
| OpExpenseSave (e : SharedExpense)
| OpCreateEqualSplits (e : SharedExpense)
| OpSettle (s : SharedExpenseSplit) (method : string)
| OpConfirmPayment (p : SharedPayment) (u : nat)
| OpAccept (i : SharedLedgerInvite) (u : nat)
| OpDecline (i : SharedLedgerInvite).

(** A method other than the creation of an expense runs on an instance
    read from its table. *)
Definition loaded (op : Op) (t : Tables) : Prop :=
  match op with
  | OpExpenseSave e => expense_pk e = None \/ e ∈ expenses t
  | OpCreateEqualSplits e => e ∈ expenses t
  | OpSettle s _ => s ∈ splits t
  | OpConfirmPayment p _ => p ∈ payments t
  | OpAccept i _ => i ∈ invites t
  | OpDecline i => i ∈ invites t
  end.

Definition perform (op : Op) : M Tables unit :=
  match op with
  | OpExpenseSave e => _ <- SharedExpense_save e ;; ret tt
  | OpCreateEqualSplits e => create_equal_splits e
  | OpSettle s method => settle s method
  | OpConfirmPayment p u => confirm_payment p u
  | OpAccept i u => _ <- accept i u ;; ret tt
  | OpDecline i => _ <- decline i ;; ret tt
  end.

(** One call, whether it returns or raises: what it wrote stays. *)
Inductive step : Env Tables -> Op -> Env Tables -> Prop :=
| step_perform env op :
    loaded op (tables env) -> step env op (snd (perform op env)).

Inductive steps : Env Tables -> Env Tables -> Prop :=
| steps_refl env : steps env env
| steps_step env op env' env'' :
    step env op env' -> steps env' env'' -> steps env env''.

(** ** State invariants *)

(** A settled split has its timestamp. *)
Definition settled_has_timestamp (t : Tables) : Prop :=
  Forall (fun s => is_settled s = true -> settled_at s <> None) (splits t).


(** ** Notions used in the statements *)


(** The body of the loop of [create_equal_splits] for an expense that has
    a key. *)
Definition split_body (pk : nat) (amt : Z) (member : SharedLedgerMember)
    : M Tables unit :=
  bind (SharedExpenseSplit_get_or_create pk (member_pk member) amt 1)
       (fun _ => ret tt).


(** A split after [settle]: the row with its three settlement columns
    rewritten. *)
Definition settled_row (s : SharedExpenseSplit) (now : Time) (method : string)
    : SharedExpenseSplit :=
  mkSplit (split_pk s) (split_expense s) (split_member s) (split_amount s)
          (split_shares s) true (Some now) method.

(** A payment after [confirm_payment]. *)
Definition confirmed_row (p : SharedPayment) (user : nat) (now : Time)
    : SharedPayment :=
  mkPayment (payment_pk p) (payment_ledger p) (from_member p) (to_member p)
            (payment_amount p) (payment_method p) true (Some user) (Some now).

(** The many-to-many table relates payment [p] to the split of key [k]. *)
Definition references (p : SharedPayment) (t : Tables) (k : nat) : bool :=
  existsb (fun r => Nat.eqb (fst r) (payment_pk p) && Nat.eqb (snd r) k)
          (related_splits t).

(** [op] is what settled the split [y], leaving the row [y']: an explicit
    [settle] of that split, or the confirmation of a payment that
    references it. *)
Definition settles (op : Op) (t : Tables) (y y' : SharedExpenseSplit) : Prop :=
  match op with
  | OpSettle s method =>
      split_pk s = split_pk y /\ settlement_method y' = method
  | OpConfirmPayment p _ =>
      references p t (split_pk y) = true /\
      settlement_method y' = payment_method p
  | _ => False
  end.

(** Between [env] and [env'] the table of splits only received new,
    unsettled rows with fresh keys; payments and their relation to splits
    are the same. *)
Definition grows (env env' : Env Tables) : Prop :=
  exists added,
    splits (tables env') = splits (tables env) ++ added /\
    split_seq (tables env') = (split_seq (tables env) + length added)%nat /\
    Forall (fun a => is_settled a = false /\ settled_at a = None /\
                     (split_seq (tables env) <= split_pk a)%nat) added /\
    payments (tables env') = payments (tables env) /\
    related_splits (tables env') = related_splits (tables env).

(** An invite after a successful [accept]. *)
Definition accepted_row (i : SharedLedgerInvite) (user : nat) (now : Time)
    : SharedLedgerInvite :=
  mkInvite (invite_pk i) (invite_ledger i) (invite_invited_by i) (Some user)
           (proposed_role i) InviteAccepted (expires_at i) (Some now)
           (invite_created_at i).

(** The user already has a membership row in the ledger. *)
Definition is_member (ledger user : nat) (t : Tables) : bool :=
  existsb (fun m => Nat.eqb (member_ledger m) ledger
                    && Nat.eqb (member_user m) user) (members t).

(** The balance calculator in the words of its contract: the sum of the
    amounts of the ledger's expenses paid by the user, *)
Definition paid_by_user (ledger user : nat) (t : Tables) : Z :=
  Decimal.sum
    (map expense_amount
         (List.filter (fun e => Nat.eqb (expense_ledger e) ledger
                                && Nat.eqb (expense_paid_by e) user)
                      (expenses t))).

(** whether a split belongs to an expense of the ledger, *)
Definition of_ledger (ledger : nat) (t : Tables) (s : SharedExpenseSplit)
    : bool :=
  existsb (fun e => has_pk (expense_pk e) (split_expense s))
          (ledger_expenses ledger t).

(** and the sum of the amounts of the splits assigned to the member across
    the expenses of the ledger, settled or not. *)
Definition share_of_member (ledger member : nat) (t : Tables) : Z :=
  Decimal.sum
    (map split_amount
         (List.filter (fun s => Nat.eqb (split_member s) member
                                && of_ledger ledger t s)
                      (splits t))).

(** An invite after a successful [decline]. *)
Definition declined_row (i : SharedLedgerInvite) (now : Time)
    : SharedLedgerInvite :=
  mkInvite (invite_pk i) (invite_ledger i) (invite_invited_by i)
           (invited_user i) (proposed_role i) InviteDeclined (expires_at i)
           (Some now) (invite_created_at i).

(** Every expense of the ledger was paid by the user of one of its
    members. *)
Definition payers_are_members (ledger : nat) (t : Tables) : Prop :=
  Forall (fun e => expense_paid_by e ∈ map member_user (ledger_members ledger t))
         (ledger_expenses ledger t).

(** Every split of an expense of the ledger is assigned to one of its
    members. *)
Definition splits_assigned_to_members (ledger : nat) (t : Tables) : Prop :=
  Forall (fun s => of_ledger ledger t s = true ->
                   split_member s ∈ map member_pk (ledger_members ledger t))
         (splits t).

(** The splits of every expense of the ledger sum to its amount. *)
Definition expenses_fully_split (ledger : nat) (t : Tables) : Prop :=
  Forall (fun e =>
            Decimal.sum
              (map split_amount
                 (List.filter (fun s => has_pk (expense_pk e) (split_expense s))
                              (splits t))) = expense_amount e)
         (ledger_expenses ledger t).

(** The sum of the balances of a dict of [calculate_balances]. *)
Definition sum_of_balances (balances : gmap nat Balance) : Z :=
  Decimal.sum (map (fun entry => balance (snd entry)) (map_to_list balances)).

(** [budget.budget_items.all()] *)
Definition items_of (self : Budgets.Budget) (t : Budgets.BudgetTables)
    : list Budgets.BudgetItem :=
  List.filter (fun i => Nat.eqb (Budgets.item_budget i) (Budgets.budget_pk self))
              (Budgets.budget_items t).

(** What [calculate_spent_amount] finds spent on one item. *)
Definition item_spent (self : Budgets.Budget) (item : Budgets.BudgetItem)
    (t : Budgets.BudgetTables) : Z :=
  Decimal.sum (map Budgets.txn_amount (Budgets.item_transactions self item t)).

(** The item as [calculate_spent_amount] saves it. *)
Definition recalculated_item (self : Budgets.Budget)
    (item : Budgets.BudgetItem) (t : Budgets.BudgetTables)
    : Budgets.BudgetItem :=
  Budgets.mkItem (Budgets.item_pk item) (Budgets.item_budget item)
    (Budgets.item_category item) (Budgets.budgeted_amount item)
    (item_spent self item t)
    (Budgets.budgeted_amount item - item_spent self item t)
    (Budgets.percent_of (item_spent self item t) (Budgets.budgeted_amount item)).


(** ** Sample data *)

Module Sample.

Definition clock0 : nat -> Time := fun n => 1000 + Z.of_nat n.

Definition alice := mkMember 1 7 11 RoleAdmin MemberActive None None 5.
Definition bob := mkMember 2 7 12 RoleMember MemberActive None None 6.
Definition carol := mkMember 3 7 13 RoleMember MemberActive None None 7.
Definition dave := mkMember 4 7 14 RoleMember MemberActive None None 8.

(** A ledger (key 7) with three active members and nothing else. *)
Definition three_members : Tables :=
  mkTables [alice; bob; carol] [] [] [] [] [] 5 1 1.

(** The same ledger without members. *)
Definition no_members : Tables := mkTables [] [] [] [] [] [] 1 1 1.

Definition env_of (t : Tables) : Env Tables := mkEnv clock0 0 t.

(** An expense of 300.00 and one of 100.00, paid by Alice, not saved. *)
Definition dinner := mkExpense None 7 30000 11 Equal ExpenseApproved.
Definition taxi := mkExpense None 7 10000 11 Equal ExpenseApproved.

(** The tables after [dinner.save()]. *)
Definition after_dinner : Env Tables :=
  snd (SharedExpense_save dinner (env_of three_members)).

Definition dinner_saved := mkExpense (Some 1%nat) 7 30000 11 Equal ExpenseApproved.

(** Dave joins after the dinner was split. *)
Definition after_dinner_with_dave : Env Tables :=
  mkEnv clock0 0
        (set_members (tables after_dinner) [alice; bob; carol; dave] 5).

(** Bob pays Alice 100.00 for his split (key 2) of the dinner. *)
Definition bob_pays :=
  mkPayment 1 7 2 1 10000 "cash" false None None.

Definition with_payment : Env Tables :=
  mkEnv clock0 0
        (mkTables [alice; bob; carol] (expenses (tables after_dinner))
                  (splits (tables after_dinner)) [bob_pays] [(1, 2)%nat] []
                  5 2 4).

(** An invite for user 14 that expires at time 1005, and one that
    expired at time 999. *)
Definition invite_open :=
  mkInvite 1 7 11 None RoleViewer InvitePending 1005 None 900.
Definition invite_late :=
  mkInvite 2 7 11 None RoleViewer InvitePending 999 None 900.

Definition with_invites : Env Tables :=
  mkEnv clock0 0
        (mkTables [alice; bob; carol] [] [] [] [] [invite_open; invite_late]
                  5 1 1).

Definition budget0 :=
  Budgets.mkBudget 1 11 0 100 50000 80 0 50000 (inject_Z 0) None None.

Definition budget_tables : Budgets.BudgetTables :=
  Budgets.mkBudgetTables
    [budget0]
    [Budgets.mkItem 1 1 3 50000 0 50000 (inject_Z 0)]
    [Budgets.mkTransaction 11 Budgets.Expense 45000 (Some 3%nat) 10].

Definition budget_env : Env Budgets.BudgetTables :=
  mkEnv clock0 0 budget_tables.

(** The same budget with more transactions: only the first is an expense
    of user 11, in the period, in the category of an item. *)
Definition busy_tables : Budgets.BudgetTables :=
  Budgets.mkBudgetTables
    [budget0]
    [Budgets.mkItem 1 1 3 50000 0 50000 (inject_Z 0);
     Budgets.mkItem 2 1 4 20000 0 20000 (inject_Z 0);
     Budgets.mkItem 3 2 3 90000 0 90000 (inject_Z 0)]
    [Budgets.mkTransaction 11 Budgets.Expense 45000 (Some 3%nat) 10;
     Budgets.mkTransaction 11 Budgets.Expense 700 (Some 3%nat) 200;
     Budgets.mkTransaction 11 Budgets.Income 900 (Some 3%nat) 10;
     Budgets.mkTransaction 12 Budgets.Expense 1100 (Some 3%nat) 10;
     Budgets.mkTransaction 11 Budgets.Expense 1300 None 10;
     Budgets.mkTransaction 11 Budgets.Expense 1700 (Some 9%nat) 10;
     Budgets.mkTransaction 11 Budgets.Expense 25000 (Some 4%nat) 100].

Definition busy_env : Env Budgets.BudgetTables := mkEnv clock0 0 busy_tables.

(** A goal of 1000.00 with 900.00 saved, due on 2025-03-20; the calendar
    puts every reading on 2025-03-05. *)
Definition holiday :=
  Goals.mkGoal 1 100000 90000 (Goals.mkDate 2025 3 20) None Goals.GoalActive.

Definition march5 : Time -> Goals.Date := fun _ => Goals.mkDate 2025 3 5.

Definition goal_env : Env Goals.GoalTables :=
  mkEnv clock0 0 (Goals.mkGoalTables [holiday] [] 1).

End Sample.

(** * Proofs *)

(** Closes [grows env env'] when the call wrote no split. *)
Ltac splits_untouched :=
  exists []; cbn; rewrite ?app_nil_r, ?Nat.add_0_r; repeat split; auto.





(** ** The loop of [create_equal_splits] *)

Lemma existsb_false_filter {A} (f : A -> bool) l :
  existsb f l = false -> List.filter f l = [].
Proof.
  induction l as [|x l IH]; simpl; [reflexivity|].
  destruct (f x); simpl; [discriminate|]. exact IH.
Qed.

Lemma filter_nil_existsb {A} (f : A -> bool) l :
  List.filter f l = [] -> existsb f l = false.
Proof.
  induction l as [|x l IH]; simpl; [reflexivity|].
  destruct (f x); simpl; [discriminate|]. exact IH.
Qed.


Lemma get_or_create_missing pk m amt sh env :
  existsb (same_pair pk m) (splits (tables env)) = false ->
  SharedExpenseSplit_get_or_create pk m amt sh env =
  (Returned (mkSplit (split_seq (tables env)) pk m amt sh false None EmptyString, true),
   mkEnv (clock env) (ticks env)
     (set_splits (tables env)
        (splits (tables env) ++
           [mkSplit (split_seq (tables env)) pk m amt sh false None EmptyString])
        (S (split_seq (tables env))))).
Proof.
  intros H. unfold SharedExpenseSplit_get_or_create, bind, query.
  rewrite (existsb_false_filter _ _ H).
  unfold SharedExpenseSplit_create. rewrite H. reflexivity.
Qed.


Lemma create_equal_splits_eq self pk env :
  expense_pk self = Some pk ->
  create_equal_splits self env =
  bind (truediv (expense_amount self)
          (Z.of_nat (length (active_members (expense_ledger self) (tables env)))))
       (fun amt => for_each (active_members (expense_ledger self) (tables env))
                     (split_body pk amt)) env.
Proof.
  intros H. unfold create_equal_splits, bind at 1, query. 
  unfold bind at 1. unfold bind at 2.
  destruct (truediv _ _ env) as [[amt|e] env1]; [|reflexivity].
  rewrite H. reflexivity.
Qed.

Lemma truediv_returns {T} c n (env : Env T) :
  n <> 0 -> truediv c n env = (Returned (Decimal.div_quantize c n), env).
Proof.
  intros H. unfold truediv. destruct (Z.eqb_spec n 0); [contradiction|reflexivity].
Qed.

Lemma truediv_raises {T} c (env : Env T) :
  truediv c 0 env =
  (Raised (if c =? 0 then InvalidOperation else DivisionByZero), env).
Proof. unfold truediv. simpl. destruct (c =? 0); reflexivity. Qed.

Lemma NoDup_map_filter {A B} (f : A -> B) (p : A -> bool) l :
  NoDup (map f l) -> NoDup (map f (List.filter p l)).
Proof.
  induction l as [|x l IH]; simpl; intros H; [constructor|].
  apply NoDup_cons in H as [Hx Hl].
  destruct (p x); simpl; [|auto].
  apply NoDup_cons. split; [|auto].
  intros Hin. apply Hx.
  apply list_elem_of_In, in_map_iff in Hin as (y & Hy & Hin).
  apply filter_In in Hin as [Hin _].
  apply list_elem_of_In, in_map_iff. eauto.
Qed.






Lemma filter_none {A} (p : A -> bool) l :
  Forall (fun x => p x = false) l -> List.filter p l = [].
Proof.
  induction 1 as [|x l Hx _ IH]; simpl; [reflexivity|]. rewrite Hx, IH. reflexivity.
Qed.


Lemma same_pair_true pk m s : same_pair pk m s = true <-> split_pair s = (pk, m).
Proof.
  unfold same_pair, split_pair. rewrite andb_true_iff, !Nat.eqb_eq.
  split; [intros [-> ->]; reflexivity | intros [= -> ->]; auto].
Qed.

Lemma existsb_same_pair pk m l :
  existsb (same_pair pk m) l = true <-> (pk, m) ∈ map split_pair l.
Proof.
  rewrite existsb_exists, list_elem_of_In, in_map_iff.
  split; intros (s & H1 & H2); exists s.
  - apply same_pair_true in H2. auto.
  - split; [tauto|]. apply same_pair_true. tauto.
Qed.

Lemma filter_unique_pair pk m l :
  NoDup (map split_pair l) ->
  List.filter (same_pair pk m) l = [] \/
  exists s, List.filter (same_pair pk m) l = [s] /\ s ∈ l /\ split_pair s = (pk, m).
Proof.
  induction l as [|x l IH]; simpl; intros Hnd; [left; reflexivity|].
  apply NoDup_cons in Hnd as [Hx Hl].
  destruct (same_pair pk m x) eqn:E.
  - right. exists x. apply same_pair_true in E.
    split; [|split; [left|exact E]].
    f_equal. apply existsb_false_filter.
    destruct (existsb (same_pair pk m) l) eqn:E'; [|reflexivity].
    apply existsb_same_pair in E'. rewrite <- E in E'. contradiction.
  - destruct (IH Hl) as [H|(s & H1 & H2 & H3)]; [left; exact H|].
    right. exists s. split; [exact H1|]. split; [right; exact H2|exact H3].
Qed.

(** What one [get_or_create] does to the table of splits. *)
Lemma get_or_create_unique pk m amt sh env :
  unique_pairs (tables env) ->
  let t := tables env in
  (exists s, s ∈ splits t /\ split_pair s = (pk, m) /\
     SharedExpenseSplit_get_or_create pk m amt sh env = (Returned (s, false), env)) \/
  (existsb (same_pair pk m) (splits t) = false /\
   SharedExpenseSplit_get_or_create pk m amt sh env =
   (Returned (mkSplit (split_seq t) pk m amt sh false None EmptyString, true),
    mkEnv (clock env) (ticks env)
      (set_splits t
         (splits t ++ [mkSplit (split_seq t) pk m amt sh false None EmptyString])
         (S (split_seq t))))).
Proof.
  intros Hu t.
  destruct (filter_unique_pair pk m _ Hu) as [H|(s & H1 & H2 & H3)].
  - right. apply filter_nil_existsb in H. split; [exact H|].
    apply get_or_create_missing. exact H.
  - left. exists s. split; [exact H2|]. split; [exact H3|].
    unfold SharedExpenseSplit_get_or_create, bind, query.
    rewrite H1. reflexivity.
Qed.

(** The loop of [create_equal_splits] on a table that satisfies the
    uniqueness constraint: it returns, keeps every row, and appends rows
    of pairs that had none. *)
Lemma loop_unique pk amt l : forall env,
  unique_pairs (tables env) ->
  exists added,
    for_each l (split_body pk amt) env =
    (Returned tt,
     mkEnv (clock env) (ticks env)
       (set_splits (tables env) (splits (tables env) ++ added)
          (split_seq (tables env) + length added))) /\
    NoDup (map split_pair (splits (tables env) ++ added)) /\
    Forall (fun s => split_expense s = pk /\ split_amount s = amt /\
                     is_settled s = false /\ settled_at s = None /\
                     split_member s ∈ map member_pk l) added.
Proof.
  induction l as [|m l IH]; intros env Hu.
  - exists []. simpl. rewrite app_nil_r, Nat.add_0_r.
    split; [|split; [exact Hu|constructor]].
    unfold ret. destruct env as [c k t]; destruct t; reflexivity.
  - simpl. unfold bind at 1, split_body at 1, bind at 1.
    destruct (get_or_create_unique pk (member_pk m) amt 1%nat env Hu)
      as [(s & _ & _ & ->)|[Hno ->]]; unfold ret at 1.
    + destruct (IH env Hu) as (added & -> & Hnd & Hall).
      exists added. split; [reflexivity|]. split; [exact Hnd|].
      eapply Forall_impl; [exact Hall|]. cbn beta. intros x (?&?&?&?&?).
      repeat split; auto. right. assumption.
    + set (row := mkSplit _ _ _ _ _ _ _ _) in *.
      set (env1 := mkEnv _ _ _).
      assert (Hu1 : unique_pairs (tables env1)).
      { unfold unique_pairs, env1. cbn [tables splits set_splits].
        rewrite map_app. apply NoDup_app. split; [exact Hu|].
        split; [|apply NoDup_singleton].
        intros p Hp Hp'. cbn in Hp'. apply list_elem_of_singleton in Hp'. subst p.
        apply existsb_same_pair in Hp. unfold row in Hp; cbn in Hp. congruence. }
      destruct (IH env1 Hu1) as (added & -> & Hnd & Hall).
      exists (row :: added). unfold env1 in *. cbn [tables splits set_splits clock ticks split_seq] in *.
      rewrite <- app_assoc in *. cbn [app length] in *.
      rewrite Nat.add_succ_r. split; [reflexivity|]. split; [exact Hnd|].
      constructor.
      * unfold row; cbn. repeat split; auto. left.
      * eapply Forall_impl; [exact Hall|]. cbn beta. intros x (?&?&?&?&?).
        repeat split; auto. right. assumption.
Qed.

Lemma loop_noop pk amt l : forall env,
  unique_pairs (tables env) ->
  Forall (fun m => (pk, member_pk m) ∈ map split_pair (splits (tables env))) l ->
  for_each l (split_body pk amt) env = (Returned tt, env).
Proof.
  induction l as [|m l IH]; intros env Hu Hall; [reflexivity|].
  apply Forall_cons in Hall as [Hm Hl].
  simpl. unfold bind at 1, split_body at 1, bind at 1.
  destruct (get_or_create_unique pk (member_pk m) amt 1%nat env Hu)
    as [(s & _ & _ & ->)|[Hno _]]; unfold ret at 1.
  - apply IH; assumption.
  - apply existsb_same_pair in Hm. congruence.
Qed.

Lemma loop_covers pk amt l : forall env env',
  unique_pairs (tables env) ->
  for_each l (split_body pk amt) env = (Returned tt, env') ->
  Forall (fun m => (pk, member_pk m) ∈ map split_pair (splits (tables env'))) l.
Proof.
  induction l as [|m l IH]; intros env env' Hu Hrun; [constructor|].
  simpl in Hrun. unfold bind at 1, split_body at 1, bind at 1 in Hrun.
  destruct (get_or_create_unique pk (member_pk m) amt 1%nat env Hu)
    as [(s & Hin & Hpair & Hgoc)|[Hno Hgoc]];
    rewrite Hgoc in Hrun; unfold ret at 1 in Hrun.
  - constructor; [|eapply IH; eassumption].
    destruct (loop_unique pk amt l env Hu) as (added & Hrun' & _ & _).
    rewrite Hrun' in Hrun. injection Hrun as <-. cbn [tables splits set_splits].
    rewrite map_app. apply elem_of_app. left.
    rewrite <- Hpair. apply list_elem_of_In, in_map, list_elem_of_In. exact Hin.
  - set (row := mkSplit _ _ _ _ _ _ _ _) in *.
    set (env1 := mkEnv _ _ _) in *.
    assert (Hu1 : unique_pairs (tables env1)).
    { unfold unique_pairs, env1. cbn [tables splits set_splits].
      rewrite map_app. apply NoDup_app. split; [exact Hu|].
      split; [|apply NoDup_singleton].
      intros p Hp Hp'. cbn in Hp'. apply list_elem_of_singleton in Hp'. subst p.
      apply existsb_same_pair in Hp. unfold row in Hp; cbn in Hp. congruence. }
    constructor; [|eapply IH; eassumption].
    destruct (loop_unique pk amt l env1 Hu1) as (added & Hrun' & _ & _).
    rewrite Hrun' in Hrun. injection Hrun as <-.
    unfold env1. cbn [tables splits set_splits].
    rewrite !map_app. apply elem_of_app. left. apply elem_of_app. right.
    cbn. left.
Qed.

(** ** Equal splits of a new expense *)





(** ** Division by the number of active members *)

Lemma create_equal_splits_no_member self env :
  active_members (expense_ledger self) (tables env) = [] ->
  create_equal_splits self env =
  (Raised (if expense_amount self =? 0 then InvalidOperation else DivisionByZero),
   env).
Proof.
  intros H. unfold create_equal_splits, bind at 1, query. rewrite H.
  unfold bind at 1. cbn [length Z.of_nat]. rewrite truediv_raises. reflexivity.
Qed.

Lemma create_equal_splits_returns self k env :
  expense_pk self = Some k ->
  unique_pairs (tables env) ->
  active_members (expense_ledger self) (tables env) <> [] ->
  exists added,
    create_equal_splits self env =
    (Returned tt,
     mkEnv (clock env) (ticks env)
       (set_splits (tables env) (splits (tables env) ++ added)
          (split_seq (tables env) + length added))) /\
    NoDup (map split_pair (splits (tables env) ++ added)) /\
    Forall (fun s =>
              split_expense s = k /\
              split_amount s =
                Decimal.div_quantize (expense_amount self)
                  (Z.of_nat (length (active_members (expense_ledger self)
                                       (tables env)))) /\
              is_settled s = false /\ settled_at s = None /\
              split_member s ∈
                map member_pk (active_members (expense_ledger self) (tables env)))
           added.
Proof.
  intros Hk Hu Hact.
  rewrite (create_equal_splits_eq self k env Hk). unfold bind at 1.
  rewrite truediv_returns.
  2:{ destruct (active_members _ _); [contradiction|]. cbn [length]. lia. }
  apply loop_unique. exact Hu.
Qed.

(** C9.  With no active member in the ledger, [create_equal_splits]
    divides by zero and raises before it writes anything, and [save] of a
    new equal-split expense raises after the expense row was inserted.
    With at least one active member (and the uniqueness constraint of the
    table of splits) [create_equal_splits] returns. *)
Theorem equal_splits_need_an_active_member env self :
  unique_pairs (tables env) ->
  let active := active_members (expense_ledger self) (tables env) in
  let error :=
    if expense_amount self =? 0 then InvalidOperation else DivisionByZero in
  (active = [] -> create_equal_splits self env = (Raised error, env)) /\
  (active = [] -> expense_pk self = None -> expense_split_method self = Equal ->
   exists env',
     SharedExpense_save self env = (Raised error, env') /\
     splits (tables env') = splits (tables env) /\
     length (expenses (tables env')) = S (length (expenses (tables env)))) /\
  (active <> [] -> expense_pk self <> None ->
   exists env', create_equal_splits self env = (Returned tt, env')).
Proof.
  intros Hu active error. split; [|split].
  - intros H. apply create_equal_splits_no_member. exact H.
  - intros H Hpk Hm.
    unfold SharedExpense_save, bind at 1, Model_save. rewrite Hpk, Hm.
    cbn [andb is_equal expense_split_method]. unfold bind at 1.
    rewrite create_equal_splits_no_member by exact H.
    eexists. split; [reflexivity|]. cbn [tables splits expenses set_expenses].
    split; [reflexivity|]. rewrite length_app. cbn [length]. lia.
  - intros H Hpk. destruct (expense_pk self) as [k|] eqn:E; [|contradiction].
    destruct (create_equal_splits_returns self k env E Hu H) as (added & -> & _).
    eexists. reflexivity.
Qed.

Lemma equal_splits_need_an_active_member_witness :
  exists env',
    SharedExpense_save Sample.dinner (Sample.env_of Sample.no_members) =
      (Raised DivisionByZero, env') /\
    splits (tables env') = [] /\
    length (expenses (tables env')) = 1%nat.
Proof.
  destruct (equal_splits_need_an_active_member
              (Sample.env_of Sample.no_members) Sample.dinner)
    as (_ & Hsave & _).
  - unfold unique_pairs. compute_done.
  - apply Hsave; reflexivity.
Defined.

(** ** Re-running the split generation *)

(** C7, as amended.  Called on a saved expense, [create_equal_splits]
    gets or creates: a split that already exists for an (expense, member)
    pair is kept as it is (the newly computed amount is not written to
    it), a pair without a split receives one row, and no duplicate is
    ever created, so a table with at most one split per pair keeps that
    property; calling it a second time changes nothing. *)
Theorem create_equal_splits_keeps_existing_splits env self k :
  expense_pk self = Some k ->
  unique_pairs (tables env) ->
  active_members (expense_ledger self) (tables env) <> [] ->
  let active := active_members (expense_ledger self) (tables env) in
  exists added env',
    create_equal_splits self env = (Returned tt, env') /\
    splits (tables env') = splits (tables env) ++ added /\
    unique_pairs (tables env') /\
    Forall (fun s =>
              (split_pair s ∉ map split_pair (splits (tables env))) /\
              split_expense s = k /\
              split_amount s =
                Decimal.div_quantize (expense_amount self)
                  (Z.of_nat (length active)))
           added /\
    Forall (fun m => (k, member_pk m) ∈ map split_pair (splits (tables env')))
           active /\
    create_equal_splits self env' = (Returned tt, env').
Proof.
  intros Hk Hu Hact active.
  destruct (create_equal_splits_returns self k env Hk Hu Hact)
    as (added & Hrun & Hnd & Hall).
  eexists added, _. split; [exact Hrun|].
  cbn [tables splits set_splits].
  split; [reflexivity|]. split; [exact Hnd|].
  assert (Hcov : Forall (fun m => (k, member_pk m) ∈
                           map split_pair (splits (tables env) ++ added)) active).
  { rewrite (create_equal_splits_eq self k env Hk) in Hrun.
    unfold bind at 1 in Hrun. rewrite truediv_returns in Hrun.
    2:{ destruct (active_members _ _); [contradiction|]. cbn [length]. lia. }
    apply (loop_covers _ _ _ _ _ Hu) in Hrun. exact Hrun. }
  split; [|split; [exact Hcov|]].
  - apply Forall_forall. intros s Hs.
    rewrite Forall_forall in Hall. destruct (Hall s Hs) as (He & Ha & _).
    split; [|split; [exact He|exact Ha]].
    rewrite map_app in Hnd. apply NoDup_app in Hnd as (_ & Hdisj & _).
    intros Hin. apply (Hdisj _ Hin).
    apply list_elem_of_In, in_map, list_elem_of_In. exact Hs.
  - rewrite (create_equal_splits_eq self k _ Hk). unfold bind at 1.
    cbn [tables set_splits members].
    change (active_members (expense_ledger self) (set_splits (tables env) _ _))
      with active.
    rewrite truediv_returns.
    2:{ unfold active. destruct (active_members _ _); [contradiction|].
        cbn [length]. lia. }
    apply loop_noop; [exact Hnd|exact Hcov].
Qed.

Lemma create_equal_splits_keeps_existing_splits_witness :
  exists added env',
    create_equal_splits Sample.dinner_saved Sample.after_dinner_with_dave =
      (Returned tt, env') /\
    splits (tables env') = splits (tables Sample.after_dinner) ++ added /\
    unique_pairs (tables env').
Proof.
  destruct (create_equal_splits_keeps_existing_splits
              Sample.after_dinner_with_dave Sample.dinner_saved 1)
    as (added & env' & Hrun & Hkeep & Hu & _).
  - reflexivity.
  - unfold unique_pairs. compute_done.
  - vm_compute. discriminate.
  - exists added, env'. split; [exact Hrun|]. split; [exact Hkeep|exact Hu].
Defined.

(** C7, as stated, fails: the dinner of 300.00 was split among three
    members (100.00 each); a fourth member joins and the generation runs
    again.  The amount computed now is 75.00, and the three existing
    splits still say 100.00: they were found, not updated. *)
Lemma split_generation_update_counterexample :
  let run := create_equal_splits Sample.dinner_saved Sample.after_dinner_with_dave in
  map split_amount (splits (tables Sample.after_dinner_with_dave))
    = [10000; 10000; 10000] /\
  length (active_members 7 (tables Sample.after_dinner_with_dave)) = 4%nat /\
  Decimal.div_quantize (expense_amount Sample.dinner_saved) 4 = 7500 /\
  fst run = Returned tt /\
  map (fun s => (split_member s, split_amount s)) (splits (tables (snd run)))
    = [(1%nat, 10000); (2%nat, 10000); (3%nat, 10000); (4%nat, 7500)].
Proof. vm_compute. repeat split; reflexivity. Qed.

(** ** Saving a row over the one of its key *)

Lemma existsb_pk {A} (pk : A -> nat) (x : A) rows :
  existsb (fun y => Nat.eqb (pk y) (pk x)) rows = true <-> pk x ∈ map pk rows.
Proof.
  rewrite existsb_exists, list_elem_of_In, in_map_iff.
  split; intros (y & H1 & H2); exists y.
  - apply Nat.eqb_eq in H2. auto.
  - split; [tauto|]. apply Nat.eqb_eq. tauto.
Qed.

Lemma upsert_present {A} (pk : A -> nat) (x : A) rows :
  pk x ∈ map pk rows ->
  upsert pk x rows = map (fun y => if Nat.eqb (pk y) (pk x) then x else y) rows.
Proof. intros H. unfold upsert. apply existsb_pk in H. rewrite H. reflexivity. Qed.

Lemma upsert_elem {A} (pk : A -> nat) (x : A) rows : x ∈ upsert pk x rows.
Proof.
  unfold upsert. destruct (existsb _ rows) eqn:E.
  - apply existsb_exists in E as (y & Hy & Heq).
    apply list_elem_of_In, in_map_iff. exists y. rewrite Heq. auto.
  - apply elem_of_app. right. left.
Qed.

Lemma upsert_elem_inv {A} (pk : A -> nat) (x z : A) rows :
  z ∈ upsert pk x rows -> z = x \/ (z ∈ rows /\ pk z <> pk x).
Proof.
  unfold upsert. destruct (existsb _ rows) eqn:E.
  - intros H. apply list_elem_of_In, in_map_iff in H as (y & Hy & Hin).
    destruct (Nat.eqb_spec (pk y) (pk x)); [left; auto|].
    right. subst z. split; [apply list_elem_of_In; exact Hin|assumption].
  - intros H. apply elem_of_app in H as [H|H].
    + right. split; [exact H|]. intros Heq.
      assert (Hex : existsb (fun y => Nat.eqb (pk y) (pk x)) rows = true).
      { apply existsb_exists. exists z. split; [apply list_elem_of_In; exact H|].
        apply Nat.eqb_eq. exact Heq. }
      congruence.
    + apply list_elem_of_singleton in H. left. exact H.
Qed.

(** ** Settling *)

Lemma settle_eq self method env :
  settle self method env =
  (Returned tt,
   mkEnv (clock env) (S (ticks env))
     (set_splits (tables env)
        (upsert split_pk (settled_row self (clock env (ticks env)) method)
           (splits (tables env)))
        (split_seq (tables env)))).
Proof. reflexivity. Qed.

(** The loop of [confirm_payment] over instances read from the table:
    every row is rewritten by some [F] that keeps keys, settles the rows
    whose key is in the list, and leaves the others alone. *)
Lemma settle_loop method l : forall env,
  Forall (fun s => split_pk s ∈ map split_pk (splits (tables env))) l ->
  exists F,
    for_each l (fun split => settle split method) env =
    (Returned tt,
     mkEnv (clock env) (ticks env + length l)
       (set_splits (tables env) (map F (splits (tables env)))
          (split_seq (tables env)))) /\
    forall y,
      split_pk (F y) = split_pk y /\
      (split_pk y ∉ map split_pk l -> F y = y) /\
      (split_pk y ∈ map split_pk l ->
       exists s i, s ∈ l /\ split_pk s = split_pk y /\
                   (ticks env <= i < ticks env + length l)%nat /\
                   F y = settled_row s (clock env i) method).
Proof.
  induction l as [|s l IH]; intros env Hin.
  - exists (fun y => y). split.
    + simpl. unfold ret. rewrite map_id, Nat.add_0_r.
      destruct env as [c k t]; destruct t; reflexivity.
    + intros y. split; [reflexivity|]. split; [reflexivity|].
      intros H. cbn in H. apply elem_of_nil in H. contradiction.
  - apply Forall_cons in Hin as [Hs Hl].
    set (now := clock env (ticks env)).
    set (G := fun y => if Nat.eqb (split_pk y) (split_pk s)
                       then settled_row s now method else y).
    assert (HG : forall y, split_pk (G y) = split_pk y).
    { intros y. unfold G. destruct (Nat.eqb_spec (split_pk y) (split_pk s)); auto. }
    set (env1 := mkEnv (clock env) (S (ticks env))
                   (set_splits (tables env) (map G (splits (tables env)))
                      (split_seq (tables env)))).
    assert (Hstep : settle s method env = (Returned tt, env1)).
    { rewrite settle_eq. unfold env1. do 3 f_equal.
      apply (upsert_present split_pk (settled_row s now method)). exact Hs. }
    assert (Hpks : map split_pk (splits (tables env1)) =
                   map split_pk (splits (tables env))).
    { unfold env1. cbn [tables splits set_splits]. rewrite map_map.
      apply map_ext. exact HG. }
    destruct (IH env1) as (F' & Hrun & HF').
    { rewrite Hpks. exact Hl. }
    exists (fun y => F' (G y)). split.
    + simpl. unfold bind at 1. rewrite Hstep, Hrun.
      unfold env1. cbn [tables splits set_splits clock ticks split_seq length].
      rewrite map_map, Nat.add_succ_r. reflexivity.
    + intros y. destruct (HF' (G y)) as (Hpk & Hout & Hinl).
      rewrite HG in Hpk, Hout, Hinl.
      split; [exact Hpk|]. split.
      * intros Hy. cbn [map] in Hy. apply not_elem_of_cons in Hy as [Hne Hy].
        rewrite (Hout Hy). unfold G.
        destruct (Nat.eqb_spec (split_pk y) (split_pk s)); [contradiction|reflexivity].
      * intros Hy. cbn [map] in Hy.
        destruct (decide (split_pk y ∈ map split_pk l)) as [Hyl|Hyl].
        -- destruct (Hinl Hyl) as (s' & i & Hs' & Hk & Hi & HFy).
           exists s', i. split; [right; exact Hs'|]. split; [exact Hk|].
           unfold env1 in Hi, HFy. cbn [ticks clock length] in *.
           split; [lia|exact HFy].
        -- rewrite (Hout Hyl). apply elem_of_cons in Hy as [Hy|Hy]; [|contradiction].
           exists s, (ticks env). split; [left|]. split; [auto|].
           cbn [length]. split; [lia|]. unfold G. rewrite Hy, Nat.eqb_refl.
           reflexivity.
Qed.

(** ** Confirming a payment *)

Lemma related_splits_all_references p t s :
  s ∈ related_splits_all p t <->
  s ∈ splits t /\ references p t (split_pk s) = true.
Proof.
  unfold related_splits_all, references.
  rewrite !list_elem_of_In, filter_In. reflexivity.
Qed.

(** What [confirm_payment] does, whatever the payment was before. *)
Lemma confirm_payment_effect env p u :
  let t := tables env in
  let p' := confirmed_row p u (clock env (ticks env)) in
  let l := related_splits_all p t in
  exists F,
    confirm_payment p u env =
    (Returned tt,
     mkEnv (clock env) (S (ticks env) + length l)
       (mkTables (members t) (expenses t) (map F (splits t))
          (upsert payment_pk p' (payments t)) (related_splits t) (invites t)
          (member_seq t) (expense_seq t) (split_seq t))) /\
    forall y,
      let resettled :=
        exists s i,
          s ∈ splits t /\ split_pk s = split_pk y /\
          references p t (split_pk y) = true /\
          (ticks env < i <= ticks env + length l)%nat /\
          F y = settled_row s (clock env i) (payment_method p) in
      split_pk (F y) = split_pk y /\
      (F y = y \/ resettled) /\
      (y ∈ splits t -> references p t (split_pk y) = true -> resettled).
Proof.
  intros t p' l.
  set (env1 := mkEnv (clock env) (S (ticks env))
                 (set_payments t (upsert payment_pk p' (payments t)))).
  destruct (settle_loop (payment_method p) l env1) as (F & Hrun & HF).
  { apply Forall_forall. intros s Hs.
    apply related_splits_all_references in Hs as [Hs _].
    apply list_elem_of_In, in_map, list_elem_of_In. exact Hs. }
  assert (Hre : forall y, split_pk y ∈ map split_pk l ->
     exists s i,
          s ∈ splits t /\ split_pk s = split_pk y /\
          references p t (split_pk y) = true /\
          (ticks env < i <= ticks env + length l)%nat /\
          F y = settled_row s (clock env i) (payment_method p)).
  { intros y Hy. destruct (HF y) as (_ & _ & Hin).
    destruct (Hin Hy) as (s & i & Hs & Hk & Hi & HFy).
    apply related_splits_all_references in Hs as [Hs Href].
    exists s, i. split; [exact Hs|]. split; [exact Hk|].
    split; [rewrite <- Hk; exact Href|].
    unfold env1 in Hi, HFy. cbn [ticks clock] in Hi, HFy.
    split; [lia|exact HFy]. }
  exists F. split.
  - unfold confirm_payment, bind at 1, timezone_now.
    unfold bind at 1, SharedPayment_save, modify. cbn [clock ticks tables].
    unfold bind at 1, query. cbn [tables].
    exact Hrun.
  - intros y. cbv zeta. destruct (HF y) as (Hpk & Hout & _).
    split; [exact Hpk|]. split.
    + destruct (decide (split_pk y ∈ map split_pk l)) as [Hy|Hy].
      * right. apply Hre. exact Hy.
      * left. apply Hout. exact Hy.
    + intros Hy Href. apply Hre.
      apply list_elem_of_In, in_map, list_elem_of_In.
      apply related_splits_all_references. auto.
Qed.

(** ** What each operation does to splits and payments *)

Lemma grows_refl env : grows env env.
Proof.
  exists []. rewrite app_nil_r, Nat.add_0_r. repeat split; auto.
Qed.

Lemma grows_trans env1 env2 env3 : grows env1 env2 -> grows env2 env3 -> grows env1 env3.
Proof.
  intros (a1 & Hs1 & Hq1 & Ha1 & Hp1 & Hr1) (a2 & Hs2 & Hq2 & Ha2 & Hp2 & Hr2).
  exists (a1 ++ a2). rewrite Hs2, Hs1, Hq2, Hq1, Hp2, Hp1, Hr2, Hr1.
  rewrite <- app_assoc, length_app. repeat split; auto; [lia|].
  apply Forall_app. split; [exact Ha1|].
  eapply Forall_impl; [exact Ha2|]. cbn beta. intros a (?&?&?).
  repeat split; auto. lia.
Qed.

Lemma get_or_create_grows pk m amt sh env :
  grows env (snd (SharedExpenseSplit_get_or_create pk m amt sh env)).
Proof.
  unfold SharedExpenseSplit_get_or_create, bind at 1, query.
  destruct (List.filter (same_pair pk m) (splits (tables env)))
    as [|s [|s' rest]] eqn:E.
  - unfold bind, SharedExpenseSplit_create.
    rewrite (filter_nil_existsb _ _ E). cbn [snd ret].
    eexists [_]. cbn [tables splits set_splits split_seq payments related_splits length].
    split; [reflexivity|]. split; [lia|]. split; [|auto].
    constructor; [|constructor]. cbn. auto.
  - apply grows_refl.
  - apply grows_refl.
Qed.

Lemma for_each_grows {A} (body : A -> M Tables unit) l :
  (forall x env, grows env (snd (body x env))) ->
  forall env, grows env (snd (for_each l body env)).
Proof.
  intros Hbody. induction l as [|x l IH]; intros env; [apply grows_refl|].
  simpl. unfold bind. pose proof (Hbody x env) as Hx.
  destruct (body x env) as [[[]|e] env1]; cbn [snd] in *; [|exact Hx].
  eapply grows_trans; [exact Hx|apply IH].
Qed.

Lemma create_equal_splits_grows self env :
  grows env (snd (create_equal_splits self env)).
Proof.
  unfold create_equal_splits, bind at 1, query. unfold bind at 1.
  unfold truediv.
  destruct (Z.of_nat _ =? 0); [destruct (_ =? 0); apply grows_refl|].
  unfold ret at 1. apply for_each_grows. intros m env0.
  destruct (expense_pk self) as [k|]; [|apply grows_refl].
  unfold bind.
  pose proof (get_or_create_grows k (member_pk m) (Decimal.div_quantize
    (expense_amount self) (Z.of_nat (length (active_members (expense_ledger self)
    (tables env))))) 1%nat env0) as H.
  destruct (SharedExpenseSplit_get_or_create _ _ _ _ env0) as [[r|e] env1];
    exact H.
Qed.

Lemma Model_save_grows self env : grows env (snd (Model_save self env)).
Proof.
  unfold Model_save. destruct (expense_pk self); cbn [snd];
    exists []; cbn [tables splits set_expenses split_seq payments related_splits];
    rewrite app_nil_r, Nat.add_0_r; repeat split; auto.
Qed.

Lemma SharedExpense_save_grows self env :
  grows env (snd (SharedExpense_save self env)).
Proof.
  unfold SharedExpense_save, bind at 1.
  pose proof (Model_save_grows self env) as H0.
  destruct (Model_save self env) as [[self'|e] env1]; cbn [snd] in *; [|exact H0].
  destruct (_ && is_equal self'); [|exact H0].
  unfold bind. pose proof (create_equal_splits_grows self' env1) as H1.
  destruct (create_equal_splits self' env1) as [[[]|e] env2]; cbn [snd] in *;
    eapply grows_trans; eauto.
Qed.

Lemma accept_grows i u env : grows env (snd (accept i u env)).
Proof.
  unfold accept. destruct (is_pending i); [|apply grows_refl].
  unfold bind at 1, timezone_now. destruct (_ <=? _); [|splits_untouched].
  unfold bind at 1. unfold bind at 1, SharedLedgerInvite_save, modify.
  cbn [clock ticks tables]. unfold bind at 1, SharedLedgerMember_create.
  unfold bind at 1, timezone_now. cbn [clock ticks tables members set_invites].
  destruct (existsb _ (members (tables env))); splits_untouched.
Qed.

Lemma decline_grows i env : grows env (snd (decline i env)).
Proof.
  unfold decline. destruct (is_pending i); [|apply grows_refl].
  splits_untouched.
Qed.

(** One call rewrites some rows of the table of splits by [F] and appends
    [added].  [F] keeps keys and changes a row only by settling it, with a
    timestamp, and only when [op] is a [settle] of that split or the
    confirmation of a payment that references it; the appended rows are
    unsettled and have fresh keys.  A payment of the new table is one of
    the old table, or the payment [op] confirmed, all of whose related
    splits [F] has settled. *)
Lemma perform_effect env op :
  loaded op (tables env) ->
  let t := tables env in
  let t' := tables (snd (perform op env)) in
  related_splits t' = related_splits t /\
  (split_seq t <= split_seq t')%nat /\
  exists F added,
    splits t' = map F (splits t) ++ added /\
    (forall y,
       split_pk (F y) = split_pk y /\
       (F y = y \/
        (is_settled (F y) = true /\ settled_at (F y) <> None /\
         settles op t y (F y)))) /\
    Forall (fun a => is_settled a = false /\ settled_at a = None /\
                     (split_seq t <= split_pk a)%nat) added /\
    (forall q, q ∈ payments t' ->
       q ∈ payments t \/
       exists p u,
         op = OpConfirmPayment p u /\
         q = confirmed_row p u (clock env (ticks env)) /\
         forall y, y ∈ splits t -> references p t (split_pk y) = true ->
                   is_settled (F y) = true).
Proof.
  intros Hload t t'.
  assert (Hgrow : grows env (snd (perform op env)) ->
    related_splits t' = related_splits t /\
    (split_seq t <= split_seq t')%nat /\
    exists F added,
      splits t' = map F (splits t) ++ added /\
      (forall y,
         split_pk (F y) = split_pk y /\
         (F y = y \/
          (is_settled (F y) = true /\ settled_at (F y) <> None /\
           settles op t y (F y)))) /\
      Forall (fun a => is_settled a = false /\ settled_at a = None /\
                       (split_seq t <= split_pk a)%nat) added /\
      (forall q, q ∈ payments t' ->
         q ∈ payments t \/
         exists p u,
           op = OpConfirmPayment p u /\
           q = confirmed_row p u (clock env (ticks env)) /\
           forall y, y ∈ splits t -> references p t (split_pk y) = true ->
                     is_settled (F y) = true)).
  { intros (added & Hs & Hq & Ha & Hp & Hr). fold t t' in Hs, Hq, Ha, Hp, Hr.
    split; [exact Hr|]. split; [lia|].
    exists (fun y => y), added. rewrite map_id.
    split; [exact Hs|]. split; [intros y; auto|]. split; [exact Ha|].
    intros q Hq'. left. rewrite <- Hp. exact Hq'. }
  destruct op as [e|e|s method|p u|i u|i]; cbn [perform] in *.
  - apply Hgrow. unfold bind.
    pose proof (SharedExpense_save_grows e env) as H.
    destruct (SharedExpense_save e env) as [[r|x] env1]; exact H.
  - apply Hgrow. apply create_equal_splits_grows.
  - clear Hgrow. cbn [loaded] in Hload. subst t'. rewrite settle_eq. cbn [snd tables].
    cbn [related_splits set_splits split_seq splits payments].
    split; [reflexivity|]. split; [unfold t; lia|].
    set (now := clock env (ticks env)).
    rewrite (upsert_present split_pk (settled_row s now method)).
    2:{ change (split_pk (settled_row s now method)) with (split_pk s).
        apply list_elem_of_In, in_map, list_elem_of_In. exact Hload. }
    eexists _, []. rewrite app_nil_r. split; [reflexivity|].
    split; [|split; [constructor|intros q Hq; left; exact Hq]].
    intros y. cbn [settled_row split_pk].
    destruct (Nat.eqb_spec (split_pk y) (split_pk s)) as [Heq|Hne].
    + split; [auto|]. right. cbn. repeat split; auto; discriminate.
    + split; [reflexivity|]. left. reflexivity.
  - clear Hgrow. subst t'.
    destruct (confirm_payment_effect env p u) as (F & Hrun & HF).
    cbv zeta in Hrun, HF. rewrite Hrun. cbn [snd tables].
    cbn [related_splits split_seq splits payments]. fold t in HF |- *.
    split; [reflexivity|]. split; [lia|].
    exists F, []. rewrite app_nil_r. split; [reflexivity|].
    split; [|split; [constructor|]].
    + intros y. destruct (HF y) as (Hpk & [Hid|(s & i & _ & _ & Href & _ & HFy)] & _).
      * split; [exact Hpk|]. left; exact Hid.
      * split; [exact Hpk|]. right. rewrite HFy. cbn.
        repeat split; auto; discriminate.
    + intros q Hq. apply upsert_elem_inv in Hq as [Hq|[Hq _]]; [|left; exact Hq].
      right. exists p, u. split; [reflexivity|]. split; [exact Hq|].
      intros y Hy Href. destruct (HF y) as (_ & _ & Hre).
      destruct (Hre Hy Href) as (s & i & _ & _ & _ & _ & HFy).
      rewrite HFy. reflexivity.
  - apply Hgrow. unfold bind.
    pose proof (accept_grows i u env) as H.
    destruct (accept i u env) as [[r|x] env1]; exact H.
  - apply Hgrow. unfold bind.
    pose proof (decline_grows i env) as H.
    destruct (decline i env) as [[r|x] env1]; exact H.
Qed.



Lemma step_settled_has_timestamp env op env' :
  step env op env' ->
  settled_has_timestamp (tables env) -> settled_has_timestamp (tables env').
Proof.
  intros Hstep Hinv. destruct Hstep as [env op Hload].
  destruct (perform_effect env op Hload) as (_ & _ & F & added & Hs & HF & Ha & _).
  unfold settled_has_timestamp in *. rewrite Hs. apply Forall_app. split.
  - rewrite Forall_forall in Hinv. apply Forall_forall. intros s' Hs'.
    apply list_elem_of_In, in_map_iff in Hs' as (y & <- & Hy).
    destruct (HF y) as (_ & [->|(_ & Hat & _)]); [|intros _; exact Hat].
    apply Hinv. apply list_elem_of_In. exact Hy.
  - eapply Forall_impl; [exact Ha|]. cbn beta. intros a (Hf & _ & _) Ht.
    congruence.
Qed.

(** C8.  Through every operation of the model, a settled split has its
    [settled_at]: the property is kept by each call (hence along any
    sequence of calls), and new splits are created unsettled.  A call
    turns an unsettled split into a settled one only when it is [settle]
    of that split or [confirm_payment] of a payment that references it,
    and it then records a timestamp and the method. *)
Theorem settled_splits_have_timestamp :
  (forall env env',
     steps env env' ->
     settled_has_timestamp (tables env) -> settled_has_timestamp (tables env')) /\
  (forall env op env',
     step env op env' ->
     exists F added,
       splits (tables env') = map F (splits (tables env)) ++ added /\
       Forall (fun a => is_settled a = false /\ settled_at a = None) added /\
       forall y,
         split_pk (F y) = split_pk y /\
         (is_settled y = false -> is_settled (F y) = true ->
          settles op (tables env) y (F y) /\ settled_at (F y) <> None)) /\
  (forall self method env,
     exists env',
       settle self method env = (Returned tt, env') /\
       let row := settled_row self (clock env (ticks env)) method in
       row ∈ splits (tables env') /\
       is_settled row = true /\
       settled_at row = Some (clock env (ticks env)) /\
       settlement_method row = method).
Proof.
  split; [|split].
  - intros env env' Hsteps. induction Hsteps as [env|env op env1 env2 Hstep _ IH].
    + auto.
    + intros Hinv. apply IH. eapply step_settled_has_timestamp; eauto.
  - intros env op env' Hstep. destruct Hstep as [env op Hload].
    destruct (perform_effect env op Hload) as (_ & _ & F & added & Hs & HF & Ha & _).
    exists F, added. split; [exact Hs|]. split.
    + eapply Forall_impl; [exact Ha|]. cbn beta. tauto.
    + intros y. destruct (HF y) as (Hpk & Hcase). split; [exact Hpk|].
      intros Hy HFy. destruct Hcase as [Heq|(_ & Hat & Hop)]; [|auto].
      rewrite Heq in HFy. congruence.
  - intros self method env. eexists. split; [apply settle_eq|].
    cbn [tables splits set_splits]. split; [apply upsert_elem|].
    repeat split.
Qed.

Lemma settled_splits_have_timestamp_witness :
  settled_has_timestamp
    (tables (snd (settle (mkSplit 2 1 2 10000 1 false None EmptyString)
                         "cash" Sample.with_payment))).
Proof.
  destruct settled_splits_have_timestamp as (Hkept & _).
  apply (Hkept Sample.with_payment).
  - eapply steps_step; [|apply steps_refl].
    apply (step_perform Sample.with_payment
             (OpSettle (mkSplit 2 1 2 10000 1 false None EmptyString) "cash")).
    vm_compute. right. left.
  - unfold settled_has_timestamp. vm_compute.
    repeat constructor; discriminate.
Defined.

(** ** Confirmed payments *)





(** ** Confirming twice *)

(** C4, as amended.  [confirm_payment] has no guard: called on a payment
    that is already confirmed it returns again without an error,
    overwrites [confirmed_by] and [confirmed_at], and settles every
    related split once more.  The splits remain settled, and their
    [settled_at] is rewritten with a clock reading of the second call and
    their [settlement_method] with the payment method. *)
Theorem confirming_again_settles_again env p u :
  is_confirmed p = true ->
  p ∈ payments (tables env) ->
  exists env',
    confirm_payment p u env = (Returned tt, env') /\
    let p' := confirmed_row p u (clock env (ticks env)) in
    (forall q, q ∈ payments (tables env') ->
               payment_pk q = payment_pk p -> q = p') /\
    p' ∈ payments (tables env') /\
    length (related_splits_all p' (tables env')) =
      length (related_splits_all p (tables env)) /\
    Forall (fun s =>
              is_settled s = true /\
              settlement_method s = payment_method p /\
              exists i, (ticks env < i <= ticks env +
                           length (related_splits_all p (tables env)))%nat /\
                        settled_at s = Some (clock env i))
           (related_splits_all p' (tables env')).
Proof.
  intros _ _.
  destruct (confirm_payment_effect env p u) as (F & Hrun & HF).
  cbv zeta in Hrun, HF. eexists. split; [exact Hrun|].
  cbv zeta. cbn [tables payments splits].
  split.
  { intros q Hq Hpk. apply upsert_elem_inv in Hq as [Hq|[_ Hne]]; [exact Hq|].
    contradiction. }
  split; [apply upsert_elem|].
  assert (Hfilter : forall l,
    List.filter (fun s => references p (tables env) (split_pk s)) (map F l) =
    map F (List.filter (fun s => references p (tables env) (split_pk s)) l)).
  { induction l as [|y l IH]; [reflexivity|]. cbn [map List.filter].
    destruct (HF y) as (-> & _). rewrite IH.
    destruct (references p (tables env) (split_pk y)); reflexivity. }
  split.
  { change (length (List.filter (fun s => references p (tables env) (split_pk s))
                      (map F (splits (tables env)))) =
            length (List.filter (fun s => references p (tables env) (split_pk s))
                      (splits (tables env)))).
    rewrite Hfilter, length_map. reflexivity. }
  apply Forall_forall. intros s' Hs'.
  apply related_splits_all_references in Hs' as [Hin Href].
  cbn [splits] in Hin. unfold references in Href.
  cbn [related_splits payment_pk confirmed_row] in Href.
  apply list_elem_of_In, in_map_iff in Hin as (y & <- & Hy).
  destruct (HF y) as (Hpk & _ & Hre). rewrite Hpk in Href.
  destruct (Hre (proj2 (list_elem_of_In _ _) Hy) Href)
    as (s & i & _ & _ & _ & Hi & ->).
  cbn. split; [reflexivity|]. split; [reflexivity|]. exists i. auto.
Qed.

Lemma confirming_again_settles_again_witness :
  exists env',
    confirm_payment (confirmed_row Sample.bob_pays 11 1000) 12
      (snd (confirm_payment Sample.bob_pays 11 Sample.with_payment))
    = (Returned tt, env').
Proof.
  destruct (confirming_again_settles_again
              (snd (confirm_payment Sample.bob_pays 11 Sample.with_payment))
              (confirmed_row Sample.bob_pays 11 1000) 12)
    as (env' & Hrun & _).
  - reflexivity.
  - vm_compute. left.
  - exists env'. exact Hrun.
Defined.

(** C4, as stated, fails: Bob's payment is confirmed by user 11 at time
    1000 and his split settled at 1001; the stored, confirmed payment is
    then confirmed again by user 12.  The second call returns normally,
    rewrites the confirmation (user 12, time 1002) and settles the split
    again (time 1003). *)
Lemma second_confirmation_counterexample :
  let env1 := snd (confirm_payment Sample.bob_pays 11 Sample.with_payment) in
  let confirmed := confirmed_row Sample.bob_pays 11 1000 in
  let run2 := confirm_payment confirmed 12 env1 in
  payments (tables env1) = [confirmed] /\
  is_confirmed confirmed = true /\
  map (fun s => (split_pk s, is_settled s, settled_at s))
      (related_splits_all confirmed (tables env1))
    = [(2%nat, true, Some 1001)] /\
  fst run2 = Returned tt /\
  payments (tables (snd run2)) = [confirmed_row Sample.bob_pays 12 1002] /\
  map (fun s => (split_pk s, is_settled s, settled_at s))
      (related_splits_all confirmed (tables (snd run2)))
    = [(2%nat, true, Some 1003)].
Proof. vm_compute. repeat split; reflexivity. Qed.

(** ** Exact amounts *)




(** ** Accepting an invite *)

Lemma accept_cases self user env :
  let t := tables env in
  let now := clock env (ticks env) in
  let responded := clock env (S (ticks env)) in
  let joined := clock env (S (S (ticks env))) in
  let saved := set_invites t (upsert invite_pk (accepted_row self user responded)
                                (invites t)) in
  accept self user env =
  if is_pending self then
    if now <=? expires_at self then
      if is_member (invite_ledger self) user t
      then (Raised IntegrityError, mkEnv (clock env) (3 + ticks env) saved)
      else (Returned true,
            mkEnv (clock env) (3 + ticks env)
              (set_members saved
                 (members t ++
                    [mkMember (member_seq t) (invite_ledger self) user
                       (proposed_role self) MemberActive
                       (Some (invite_invited_by self))
                       (Some (invite_created_at self)) joined])
                 (S (member_seq t))))
    else (Returned false, mkEnv (clock env) (S (ticks env)) t)
  else (Returned false, env).
Proof.
  cbv zeta. unfold accept. destruct (is_pending self); [|reflexivity].
  unfold bind at 1, timezone_now. destruct (_ <=? _); [|reflexivity].
  unfold bind at 1. unfold bind at 1, SharedLedgerInvite_save, modify.
  cbn [clock ticks tables]. unfold bind at 1, SharedLedgerMember_create.
  unfold bind at 1, timezone_now. cbn [clock ticks tables members set_invites].
  unfold is_member. cbn [invite_ledger proposed_role invite_invited_by
                           invite_created_at accepted_row].
  destruct (existsb _ (members (tables env))); reflexivity.
Qed.



(** ** Balances *)

Lemma filter_filter {A} (p q : A -> bool) l :
  List.filter p (List.filter q l) = List.filter (fun x => q x && p x) l.
Proof.
  induction l as [|x l IH]; [reflexivity|]. cbn [List.filter].
  destruct (q x); cbn [andb List.filter]; [|exact IH].
  destruct (p x); rewrite IH; reflexivity.
Qed.

Lemma member_total_paid_spec ledger member t :
  member_total_paid ledger member t = paid_by_user ledger (member_user member) t.
Proof.
  unfold member_total_paid, paid_by_user, ledger_expenses.
  rewrite filter_filter. reflexivity.
Qed.

(** The inner loop of [calculate_balances] as a sum. *)
Lemma share_loop_sum (h : SharedExpense -> option SharedExpenseSplit) l : forall acc,
  fold_left
    (fun total expense =>
       match h expense with
       | Some member_share => total + split_amount member_share
       | None => total
       end) l acc =
  acc + Decimal.sum
          (map (fun e => match h e with Some s => split_amount s | None => 0 end) l).
Proof.
  induction l as [|e l IH]; intros acc; cbn [fold_left map Decimal.sum fold_right].
  - lia.
  - rewrite IH. unfold Decimal.sum. destruct (h e); lia.
Qed.

Lemma head_amount_unique pk m l :
  NoDup (map split_pair l) ->
  match head (List.filter (same_pair pk m) l) with
  | Some s => split_amount s
  | None => 0
  end = Decimal.sum (map split_amount (List.filter (same_pair pk m) l)).
Proof.
  intros Hnd. destruct (filter_unique_pair pk m l Hnd) as [->|(s & -> & _)].
  - reflexivity.
  - cbn. lia.
Qed.

Lemma expense_splits_of_pair expense member t k :
  expense_pk expense = Some k ->
  expense_splits_of expense member t =
  List.filter (same_pair k (member_pk member)) (splits t).
Proof.
  intros Hk. unfold expense_splits_of. apply filter_ext. intros s.
  rewrite Hk. unfold same_pair, has_pk. rewrite (Nat.eqb_sym k). reflexivity.
Qed.

Lemma expense_splits_of_unsaved expense member t :
  expense_pk expense = None -> expense_splits_of expense member t = [].
Proof.
  intros Hk. unfold expense_splits_of. apply filter_none.
  apply Forall_forall. intros s _. rewrite Hk. reflexivity.
Qed.

Lemma sum_cons x l : Decimal.sum (x :: l) = x + Decimal.sum l.
Proof. reflexivity. Qed.

(** One split is counted by at most one expense of a list with distinct
    keys. *)
Lemma count_once (E : list SharedExpense) (k : nat) (b : bool) (a : Z) :
  NoDup (map expense_pk E) ->
  Decimal.sum
    (map (fun e => if has_pk (expense_pk e) k && b then a else 0) E) =
  if b && existsb (fun e => has_pk (expense_pk e) k) E then a else 0.
Proof.
  destruct b; cbn [andb].
  2:{ intros _. induction E as [|e E IH]; [reflexivity|].
      cbn [map]. rewrite sum_cons, IH, andb_false_r. reflexivity. }
  induction E as [|e E IH]; intros Hnd; [reflexivity|].
  apply NoDup_cons in Hnd as [Hnotin Hnd]. cbn [map existsb].
  rewrite sum_cons, andb_true_r.
  destruct (has_pk (expense_pk e) k) eqn:He; cbn [orb].
  - assert (Hrest : Decimal.sum
      (map (fun e0 => if has_pk (expense_pk e0) k && true then a else 0) E) = 0).
    { clear IH Hnd. induction E as [|e' E IH']; [reflexivity|].
      cbn [map] in Hnotin |- *. apply not_elem_of_cons in Hnotin as [Hne Hnotin].
      assert (He' : has_pk (expense_pk e') k = false).
      { destruct (has_pk (expense_pk e') k) eqn:He'; [|reflexivity].
        exfalso. apply Hne. unfold has_pk in He, He'.
        destruct (expense_pk e), (expense_pk e'); try discriminate.
        apply Nat.eqb_eq in He, He'. congruence. }
      rewrite sum_cons, He', (IH' Hnotin). reflexivity. }
    rewrite Hrest. lia.
  - rewrite (IH Hnd). lia.
Qed.

Lemma sum_map_add {A} (f g : A -> Z) l :
  Decimal.sum (map (fun x => f x + g x) l) =
  Decimal.sum (map f l) + Decimal.sum (map g l).
Proof.
  induction l as [|x l IH]; [reflexivity|].
  cbn [map]. rewrite !sum_cons, IH. lia.
Qed.

(** Summing, expense by expense, the splits of a member is summing the
    member's splits that belong to one of the expenses. *)
Lemma double_sum (E : list SharedExpense) (m : nat) (S : list SharedExpenseSplit) :
  NoDup (map expense_pk E) ->
  Decimal.sum
    (map (fun e =>
            Decimal.sum
              (map split_amount
                 (List.filter (fun s => has_pk (expense_pk e) (split_expense s)
                                        && Nat.eqb (split_member s) m) S))) E) =
  Decimal.sum
    (map split_amount
       (List.filter
          (fun s => Nat.eqb (split_member s) m
                    && existsb (fun e => has_pk (expense_pk e) (split_expense s)) E)
          S)).
Proof.
  intros Hnd. induction S as [|s S IH].
  - cbn [List.filter map]. induction E as [|e E IHE]; [reflexivity|].
    apply NoDup_cons in Hnd as [_ Hnd]. cbn [map]. rewrite sum_cons, (IHE Hnd).
    reflexivity.
  - cbn [List.filter].
    rewrite (map_ext _
      (fun e => (if has_pk (expense_pk e) (split_expense s)
                    && Nat.eqb (split_member s) m
                 then split_amount s else 0) +
                Decimal.sum
                  (map split_amount
                     (List.filter
                        (fun s0 => has_pk (expense_pk e) (split_expense s0)
                                   && Nat.eqb (split_member s0) m) S)))).
    2:{ intros e. destruct (has_pk _ _ && _); cbn [map]; rewrite ?sum_cons; lia. }
    rewrite sum_map_add, IH, (count_once E _ _ _ Hnd).
    destruct (Nat.eqb (split_member s) m && existsb _ E); cbn [map];
      rewrite ?sum_cons; lia.
Qed.

Lemma member_total_share_spec ledger member t :
  unique_pairs t ->
  unique_expense_pks t ->
  member_total_share ledger member t =
  share_of_member ledger (member_pk member) t.
Proof.
  intros Hu [Hnd _]. unfold member_total_share, share_of_member, of_ledger.
  rewrite (share_loop_sum (fun e => head (expense_splits_of e member t))).
  rewrite Z.add_0_l.
  rewrite <- (double_sum (ledger_expenses ledger t) (member_pk member) (splits t)).
  2:{ apply NoDup_map_filter. exact Hnd. }
  f_equal. apply map_ext. intros e.
  destruct (expense_pk e) as [k|] eqn:Hk.
  - rewrite (expense_splits_of_pair e member t k Hk).
    rewrite (head_amount_unique k (member_pk member) (splits t) Hu).
    f_equal. f_equal. apply filter_ext. intros s.
    unfold same_pair, has_pk. rewrite (Nat.eqb_sym k). reflexivity.
  - rewrite (expense_splits_of_unsaved e member t Hk). cbn [head].
    rewrite filter_none; [reflexivity|].
    apply Forall_forall. intros s _. reflexivity.
Qed.

(** The outer loop: the entry of a user is the one written for the member
    of that user. *)
Lemma fold_insert_untouched {A V} (key : A -> nat) (val : A -> V) l k :
  forall acc : gmap nat V,
  k ∉ map key l ->
  fold_left (fun b x => <[key x := val x]> b) l acc !! k = acc !! k.
Proof.
  induction l as [|x l IH]; intros acc Hk; [reflexivity|].
  cbn [map] in Hk. apply not_elem_of_cons in Hk as [Hne Hk].
  cbn [fold_left]. rewrite (IH _ Hk). apply lookup_insert_ne. auto.
Qed.

Lemma fold_insert_lookup {A V} (key : A -> nat) (val : A -> V) l m :
  forall acc : gmap nat V,
  NoDup (map key l) -> m ∈ l ->
  fold_left (fun b x => <[key x := val x]> b) l acc !! key m = Some (val m).
Proof.
  induction l as [|x l IH]; intros acc Hnd Hm.
  - apply elem_of_nil in Hm. contradiction.
  - cbn [map] in Hnd. apply NoDup_cons in Hnd as [Hx Hnd]. cbn [fold_left].
    apply elem_of_cons in Hm as [->|Hm].
    + rewrite (fold_insert_untouched key val l (key x) _ Hx).
      apply lookup_insert_eq.
    + apply IH; assumption.
Qed.

Lemma ledger_members_users ledger t :
  unique_ledger_user t -> NoDup (map member_user (ledger_members ledger t)).
Proof.
  unfold unique_ledger_user, ledger_members.
  induction (members t) as [|m l IH]; intros Hnd; [constructor|].
  cbn [map] in Hnd. apply NoDup_cons in Hnd as [Hm Hnd]. cbn [List.filter].
  destruct (Nat.eqb_spec (member_ledger m) ledger) as [Heq|Hne]; [|auto].
  cbn [map]. apply NoDup_cons. split; [|auto].
  intros Hin. apply Hm.
  apply list_elem_of_In, in_map_iff in Hin as (m' & Hu & Hin).
  apply filter_In in Hin as [Hin Hl]. apply Nat.eqb_eq in Hl.
  apply list_elem_of_In, in_map_iff. exists m'. split; [congruence|exact Hin].
Qed.

Lemma fold_left_ext_eq {A B} (f g : B -> A -> B) l :
  (forall b x, f b x = g b x) -> forall acc, fold_left f l acc = fold_left g l acc.
Proof.
  intros H. induction l as [|x l IH]; intros acc; [reflexivity|].
  cbn [fold_left]. rewrite H. apply IH.
Qed.

Lemma filter_map_commute {A} (p : A -> bool) (f : A -> A) l :
  (forall x, p (f x) = p x) ->
  List.filter p (map f l) = map f (List.filter p l).
Proof.
  intros H. induction l as [|x l IH]; [reflexivity|].
  cbn [map List.filter]. rewrite H, IH. destruct (p x); reflexivity.
Qed.

Lemma member_total_share_settlement ledger member t f n :
  (forall s, split_expense (f s) = split_expense s /\
             split_member (f s) = split_member s /\
             split_amount (f s) = split_amount s) ->
  member_total_share ledger member (set_splits t (map f (splits t)) n) =
  member_total_share ledger member t.
Proof.
  intros Hf. unfold member_total_share.
  change (ledger_expenses ledger (set_splits t (map f (splits t)) n))
    with (ledger_expenses ledger t).
  apply fold_left_ext_eq. intros total e.
  unfold expense_splits_of. cbn [splits set_splits].
  rewrite filter_map_commute.
  2:{ intros s. destruct (Hf s) as (-> & -> & _). reflexivity. }
  destruct (List.filter _ (splits t)) as [|s l]; [reflexivity|].
  cbn [map head]. destruct (Hf s) as (_ & _ & ->). reflexivity.
Qed.

Lemma active_members_are_members ledger t m :
  m ∈ active_members ledger t -> m ∈ ledger_members ledger t.
Proof.
  unfold active_members, ledger_members. rewrite !list_elem_of_In, !filter_In.
  intros [Hin Hp]. apply andb_true_iff in Hp as [Hl _]. auto.
Qed.

(** C2.  For every member of the ledger, active members in particular,
    [calculate_balances] holds under the member's user an entry whose
    [total_paid] is the sum of the amounts of the ledger's expenses paid by
    that user, whose [total_share] is the sum of the amounts of the splits
    assigned to the member across the ledger's expenses, and whose
    [balance] is their difference (the tables satisfying their uniqueness
    constraints).  The result does not depend on the settlement columns
    of the splits.  For the dinner of 300.00 paid by Alice and split
    equally among Alice, Bob and Carol the balances are +200.00, -100.00
    and -100.00, and sum to zero. *)
Theorem balances_of_members :
  (forall t ledger m,
     unique_ledger_user t -> unique_pairs t -> unique_expense_pks t ->
     m ∈ ledger_members ledger t ->
     let paid := paid_by_user ledger (member_user m) t in
     let share := share_of_member ledger (member_pk m) t in
     calculate_balances ledger t !! member_user m =
     Some (mkBalance (member_user m) paid share (paid - share))) /\
  (forall t ledger m,
     m ∈ active_members ledger t -> m ∈ ledger_members ledger t) /\
  (forall t ledger f n,
     (forall s, split_expense (f s) = split_expense s /\
                split_member (f s) = split_member s /\
                split_amount (f s) = split_amount s) ->
     calculate_balances ledger (set_splits t (map f (splits t)) n) =
     calculate_balances ledger t) /\
  (let balances := calculate_balances 7 (tables Sample.after_dinner) in
   balances !! 11%nat = Some (mkBalance 11 30000 10000 20000) /\
   balances !! 12%nat = Some (mkBalance 12 0 10000 (-10000)) /\
   balances !! 13%nat = Some (mkBalance 13 0 10000 (-10000)) /\
   Decimal.sum (map (fun entry => balance (snd entry)) (map_to_list balances)) = 0).
Proof.
  split; [|split; [|split]].
  - intros t ledger m Hlu Hup Hue Hm paid share.
    unfold calculate_balances.
    rewrite (fold_insert_lookup member_user
               (fun member =>
                  mkBalance (member_user member)
                    (member_total_paid ledger member t)
                    (member_total_share ledger member t)
                    (member_total_paid ledger member t
                     - member_total_share ledger member t))
               (ledger_members ledger t) m ∅
               (ledger_members_users ledger t Hlu) Hm).
    rewrite member_total_paid_spec, (member_total_share_spec _ _ _ Hup Hue).
    reflexivity.
  - intros t ledger m. apply active_members_are_members.
  - intros t ledger f n Hf. unfold calculate_balances.
    change (ledger_members ledger (set_splits t (map f (splits t)) n))
      with (ledger_members ledger t).
    apply fold_left_ext_eq. intros b member.
    rewrite (member_total_share_settlement ledger member t f n Hf).
    reflexivity.
  - vm_compute. repeat split; reflexivity.
Qed.

Lemma balances_of_members_witness :
  calculate_balances 7 (tables Sample.after_dinner) !! 12%nat =
  Some (mkBalance 12
          (paid_by_user 7 12 (tables Sample.after_dinner))
          (share_of_member 7 2 (tables Sample.after_dinner))
          (paid_by_user 7 12 (tables Sample.after_dinner)
           - share_of_member 7 2 (tables Sample.after_dinner))).
Proof.
  destruct balances_of_members as (Hentry & _).
  apply (Hentry (tables Sample.after_dinner) 7%nat Sample.bob).
  - unfold unique_ledger_user. compute_done.
  - unfold unique_pairs. compute_done.
  - unfold unique_expense_pks. split; [compute_done|].
    vm_compute. repeat constructor; discriminate.
  - vm_compute. right. left.
Defined.

(** ** The threshold alert of a budget *)

Lemma for_fold_returns {T A S} (body : S -> A -> M T S) l :
  (forall acc x env, exists r env', body acc x env = (Returned r, env')) ->
  forall acc env, exists r env',
    Budgets.for_fold l acc body env = (Returned r, env').
Proof.
  intros Hbody. induction l as [|x l IH]; intros acc env.
  - eexists _, _. reflexivity.
  - cbn [Budgets.for_fold]. unfold bind.
    destruct (Hbody acc x env) as (r & env1 & ->). apply IH.
Qed.

Lemma calculate_spent_amount_returns self env :
  exists spent now env',
    Budgets.calculate_spent_amount self env =
    (Returned
       (Budgets.mkBudget (Budgets.budget_pk self) (Budgets.budget_user self)
          (Budgets.period_start_date self) (Budgets.period_end_date self)
          (Budgets.total_budget_amount self)
          (Budgets.alert_threshold_percentage self)
          spent (Budgets.total_budget_amount self - spent)
          (Budgets.percent_of spent (Budgets.total_budget_amount self))
          (Some now) (Budgets.alert_sent_at self),
        spent),
     env').
Proof.
  unfold Budgets.calculate_spent_amount, bind, query.
  match goal with
  | |- context [Budgets.for_fold ?l ?a ?b ?e] =>
      destruct (for_fold_returns b l
                  ltac:(intros; eexists _, _; reflexivity) a e)
        as (spent & env1 & Hloop)
  end.
  rewrite Hloop. unfold timezone_now, Budgets.Budget_save, modify, ret.
  eexists _, _, _. reflexivity.
Qed.

Lemma check_alert_threshold_cases self env :
  Budgets.check_alert_threshold self env =
  if Qle_bool (inject_Z (Budgets.alert_threshold_percentage self))
              (Budgets.percentage_used self)
     && match Budgets.alert_sent_at self with None => true | Some _ => false end
  then
    let self' :=
      Budgets.mkBudget (Budgets.budget_pk self) (Budgets.budget_user self)
        (Budgets.period_start_date self) (Budgets.period_end_date self)
        (Budgets.total_budget_amount self)
        (Budgets.alert_threshold_percentage self) (Budgets.total_spent self)
        (Budgets.remaining_amount self) (Budgets.percentage_used self)
        (Budgets.last_calculated_at self) (Some (clock env (ticks env))) in
    (Returned (self', true),
     mkEnv (clock env) (S (ticks env))
       (Budgets.mkBudgetTables
          (upsert Budgets.budget_pk self' (Budgets.budgets (tables env)))
          (Budgets.budget_items (tables env))
          (Budgets.transactions (tables env))))
  else (Returned (self, false), env).
Proof.
  unfold Budgets.check_alert_threshold.
  destruct (Qle_bool _ _ && _); reflexivity.
Qed.

(** Over any sequence of calls the alert fires at most once, and not at
    all once [alert_sent_at] is set; the calls never clear it. *)
Lemma run_fires_once calls : forall self env,
  exists self' results env',
    Budgets.run calls self env = (Returned (self', results), env') /\
    (length (List.filter (fun b => b) results) <= 1)%nat /\
    (Budgets.alert_sent_at self <> None ->
     Forall (fun b => b = false) results /\
     Budgets.alert_sent_at self' = Budgets.alert_sent_at self).
Proof.
  induction calls as [|call calls IH]; intros self env.
  - eexists _, _, _. split; [reflexivity|]. cbn. split; [lia|]. auto.
  - destruct call as [| |p]; cbn [Budgets.run].
    + destruct (calculate_spent_amount_returns self env) as (spent & now & env1 & Hrun).
      unfold bind at 1. rewrite Hrun. cbn [fst].
      destruct (IH (Budgets.mkBudget (Budgets.budget_pk self) (Budgets.budget_user self)
          (Budgets.period_start_date self) (Budgets.period_end_date self)
          (Budgets.total_budget_amount self)
          (Budgets.alert_threshold_percentage self)
          spent (Budgets.total_budget_amount self - spent)
          (Budgets.percent_of spent (Budgets.total_budget_amount self))
          (Some now) (Budgets.alert_sent_at self)) env1)
        as (self' & results & env' & -> & Hcount & Hset).
      eexists _, _, _. split; [reflexivity|]. split; [exact Hcount|exact Hset].
    + unfold bind at 1. rewrite check_alert_threshold_cases.
      destruct (Qle_bool _ _) eqn:Hq; cbn [andb];
        [destruct (Budgets.alert_sent_at self) eqn:Hsent|]; cbv zeta; cbn [fst snd].
      * destruct (IH self env) as (self' & results & env' & Hrun & Hcount & Hset).
        unfold bind at 1. rewrite Hrun. unfold ret.
        eexists _, _, _. split; [reflexivity|]. cbn [fst snd List.filter].
        split; [exact Hcount|]. intros _. rewrite Hsent in Hset.
        destruct Hset as [Hall Heq]; [discriminate|].
        split; [constructor; auto|exact Heq].
      * unfold bind at 1.
        match goal with |- context [Budgets.run calls ?b ?e] =>
          destruct (IH b e) as (self' & results & env' & Hrun & Hcount & Hset)
        end.
        rewrite Hrun. unfold ret.
        eexists _, _, _. split; [reflexivity|]. cbn [fst snd List.filter].
        destruct Hset as [Hall _]; [discriminate|].
        split; [|intros H; contradiction].
        rewrite filter_none; [cbn; lia|]. exact Hall.
      * destruct (IH self env) as (self' & results & env' & Hrun & Hcount & Hset).
        unfold bind at 1. rewrite Hrun. unfold ret.
        eexists _, _, _. split; [reflexivity|]. cbn [fst snd List.filter].
        split; [exact Hcount|]. intros Hsome.
        destruct (Hset Hsome) as [Hall Heq].
        split; [constructor; auto|exact Heq].
    + unfold bind at 1, Budgets.Budget_save, modify. cbv beta iota.
      match goal with |- context [Budgets.run calls ?b ?e] =>
        destruct (IH b e) as (self' & results & env' & Hrun & Hcount & Hset)
      end.
      rewrite Hrun. eexists _, _, _. split; [reflexivity|].
      split; [exact Hcount|exact Hset].
Qed.

(** C10.  [check_alert_threshold] returns true exactly when
    [percentage_used] has reached [alert_threshold_percentage] and
    [alert_sent_at] is not set, and it then sets and saves
    [alert_sent_at].  Once [alert_sent_at] is set the method returns false
    and writes nothing, whatever [percentage_used] is.  Over any sequence
    of calls of the methods of a budget, with the statistic rewritten at
    will in between, the alert fires at most once, and [alert_sent_at],
    once set, keeps its value. *)
Theorem alert_fires_at_most_once :
  (forall self env,
     Qle (inject_Z (Budgets.alert_threshold_percentage self))
         (Budgets.percentage_used self) ->
     Budgets.alert_sent_at self = None ->
     exists self' env',
       Budgets.check_alert_threshold self env = (Returned (self', true), env') /\
       Budgets.alert_sent_at self' = Some (clock env (ticks env)) /\
       self' ∈ Budgets.budgets (tables env')) /\
  (forall self env self' env',
     Budgets.check_alert_threshold self env = (Returned (self', true), env') ->
     Qle (inject_Z (Budgets.alert_threshold_percentage self))
         (Budgets.percentage_used self) /\
     Budgets.alert_sent_at self = None) /\
  (forall self env sent,
     Budgets.alert_sent_at self = Some sent ->
     Budgets.check_alert_threshold self env = (Returned (self, false), env)) /\
  (forall calls self env,
     exists self' results env',
       Budgets.run calls self env = (Returned (self', results), env') /\
       (length (List.filter (fun fired => fired) results) <= 1)%nat /\
       (Budgets.alert_sent_at self <> None ->
        Forall (fun fired => fired = false) results /\
        Budgets.alert_sent_at self' = Budgets.alert_sent_at self)).
Proof.
  split; [|split; [|split]].
  - intros self env Hq Hsent. rewrite check_alert_threshold_cases.
    apply Qle_bool_iff in Hq. rewrite Hq, Hsent. cbn [andb]. cbv zeta.
    eexists _, _. split; [reflexivity|]. split; [reflexivity|].
    cbn [tables Budgets.budgets]. apply upsert_elem.
  - intros self env self' env'. rewrite check_alert_threshold_cases.
    destruct (Qle_bool _ _) eqn:Hq; cbn [andb]; [|discriminate].
    destruct (Budgets.alert_sent_at self); [discriminate|].
    intros _. split; [apply Qle_bool_iff; exact Hq|reflexivity].
  - intros self env sent Hsent. rewrite check_alert_threshold_cases, Hsent.
    rewrite andb_false_r. reflexivity.
  - intros calls self env. apply run_fires_once.
Qed.

Lemma alert_fires_at_most_once_witness :
  exists self' env',
    Budgets.run
      [Budgets.CallCalculateSpentAmount; Budgets.CallCheckAlertThreshold;
       Budgets.CallSetPercentageUsed (inject_Z 200);
       Budgets.CallCheckAlertThreshold]
      Sample.budget0 Sample.budget_env
    = (Returned (self', [true; false]), env') /\
    Budgets.alert_sent_at self' = Some 1001.
Proof.
  destruct alert_fires_at_most_once as (_ & _ & _ & Hrun).
  destruct (Hrun [Budgets.CallCalculateSpentAmount; Budgets.CallCheckAlertThreshold;
                  Budgets.CallSetPercentageUsed (inject_Z 200);
                  Budgets.CallCheckAlertThreshold]
                 Sample.budget0 Sample.budget_env)
    as (self' & results & env' & Heq & _).
  exists self', env'. vm_compute in Heq. injection Heq as <- <- <-.
  split; reflexivity.
Defined.

(** * Further properties of the shared ledger *)

(** ** Declining, and answering twice *)

Lemma decline_cases self env :
  decline self env =
  if is_pending self
  then (Returned true,
        mkEnv (clock env) (S (ticks env))
          (set_invites (tables env)
             (upsert invite_pk (declined_row self (clock env (ticks env)))
                (invites (tables env)))))
  else (Returned false, env).
Proof. unfold decline. destruct (is_pending self); reflexivity. Qed.

Lemma is_pending_status i :
  is_pending i = true <-> invite_status i = InvitePending.
Proof. unfold is_pending. destruct (invite_status i); split; congruence. Qed.

(** X1.  [decline] returns true exactly for a pending invite; it then
    stores the invite as declined with [responded_at] set, whatever the
    expiry time, and in no case touches members, splits, expenses or
    payments.  On an invite that is not pending it returns false without
    reading the clock or writing. *)
Theorem decline_invite env self :
  let run := decline self env in
  let t := tables env in
  let t' := tables (snd run) in
  (fst run = Returned true <-> invite_status self = InvitePending) /\
  (fst run = Returned true \/ fst run = Returned false) /\
  (invite_status self = InvitePending ->
   let row := declined_row self (clock env (ticks env)) in
   invites t' = upsert invite_pk row (invites t) /\
   row ∈ invites t' /\
   invite_status row = InviteDeclined /\
   responded_at row = Some (clock env (ticks env))) /\
  (invite_status self <> InvitePending -> snd run = env) /\
  members t' = members t /\ splits t' = splits t /\
  expenses t' = expenses t /\ payments t' = payments t.
Proof.
  cbv zeta. rewrite decline_cases.
  pose proof (is_pending_status self) as Hp.
  destruct (is_pending self); cbn [fst snd tables invites set_invites members
                                     splits expenses payments].
  - split; [split; intros _; [apply Hp|]; reflexivity|].
    split; [left; reflexivity|].
    split.
    { intros _. split; [reflexivity|]. split; [apply upsert_elem|].
      split; reflexivity. }
    split; [intros H; exfalso; apply H, Hp; reflexivity|].
    repeat split.
  - split.
    { split; [discriminate|]. intros H. apply Hp in H. discriminate. }
    split; [right; reflexivity|].
    split; [intros H; apply Hp in H; discriminate|].
    split; [reflexivity|]. repeat split.
Qed.

Lemma stored_after_upsert {A} (pk : A -> nat) (x q : A) rows :
  q ∈ upsert pk x rows -> pk q = pk x -> q = x.
Proof.
  intros Hq Hpk. apply upsert_elem_inv in Hq as [Hq|[_ Hne]]; [exact Hq|].
  contradiction.
Qed.

(** X2.  An answer is final.  After [accept] has returned true, or has
    raised on the member row, or after [decline] has returned true, the
    invite stored under that key is no longer pending; and on an invite
    that is not pending every later [accept] and [decline] returns false
    and leaves the environment as it is.  So answering twice creates no
    second member and never changes the first answer. *)
Theorem invite_answer_is_final env self user :
  invite_status self = InvitePending ->
  (clock env (ticks env) <= expires_at self ->
   forall q, q ∈ invites (tables (snd (accept self user env))) ->
             invite_pk q = invite_pk self ->
             invite_status q = InviteAccepted) /\
  (forall q, q ∈ invites (tables (snd (decline self env))) ->
             invite_pk q = invite_pk self ->
             invite_status q = InviteDeclined) /\
  (forall q u env',
     invite_status q <> InvitePending ->
     accept q u env' = (Returned false, env') /\
     decline q env' = (Returned false, env')).
Proof.
  intros Hst.
  assert (Hp : is_pending self = true) by (apply is_pending_status; exact Hst).
  split; [|split].
  - intros Hle q. rewrite accept_cases. cbv zeta. rewrite Hp.
    destruct (Z.leb_spec (clock env (ticks env)) (expires_at self)); [|lia].
    destruct (is_member _ _ _); cbn [snd tables invites set_invites set_members];
      intros Hq Hpk;
      rewrite (stored_after_upsert invite_pk _ q _ Hq Hpk); reflexivity.
  - intros q. rewrite decline_cases, Hp.
    cbn [snd tables invites set_invites]. intros Hq Hpk.
    rewrite (stored_after_upsert invite_pk _ q _ Hq Hpk). reflexivity.
  - intros q u env' Hq.
    assert (Hnp : is_pending q = false).
    { destruct (is_pending q) eqn:E; [|reflexivity].
      apply is_pending_status in E. contradiction. }
    rewrite accept_cases, decline_cases. cbv zeta. rewrite Hnp. split; reflexivity.
Qed.

Lemma invite_answer_is_final_witness :
  let env1 := snd (accept Sample.invite_open 14 Sample.with_invites) in
  forallb (fun q => negb (Nat.eqb (invite_pk q) 1) || negb (is_pending q))
          (invites (tables env1)) = true /\
  accept (accepted_row Sample.invite_open 14 1001) 15 env1 = (Returned false, env1).
Proof.
  cbv zeta. split; [reflexivity|].
  destruct (invite_answer_is_final Sample.with_invites Sample.invite_open 14)
    as (_ & _ & Hfinal); [reflexivity|].
  apply Hfinal. discriminate.
Defined.

(** X3.  [accept] saves the invite before it inserts the member.  For a
    pending invite read in time whose user already is a member of the
    ledger, the insertion raises [IntegrityError]: no member row is
    added, and the invite stays stored as accepted, with the user and
    [responded_at] recorded. *)
Theorem accept_of_a_member_raises env self user :
  invite_status self = InvitePending ->
  clock env (ticks env) <= expires_at self ->
  is_member (invite_ledger self) user (tables env) = true ->
  exists env',
    accept self user env = (Raised IntegrityError, env') /\
    members (tables env') = members (tables env) /\
    member_seq (tables env') = member_seq (tables env) /\
    let row := accepted_row self user (clock env (S (ticks env))) in
    invites (tables env') = upsert invite_pk row (invites (tables env)) /\
    row ∈ invites (tables env') /\
    invite_status row = InviteAccepted /\
    invited_user row = Some user.
Proof.
  intros Hst Hle Hmem. rewrite accept_cases. cbv zeta.
  apply is_pending_status in Hst. rewrite Hst, Hmem.
  destruct (Z.leb_spec (clock env (ticks env)) (expires_at self)); [|lia].
  eexists. split; [reflexivity|].
  cbn [tables members member_seq invites set_invites].
  split; [reflexivity|]. split; [reflexivity|]. split; [reflexivity|].
  split; [apply upsert_elem|]. split; reflexivity.
Qed.

Lemma accept_of_a_member_raises_witness :
  exists env',
    accept Sample.invite_open 12 Sample.with_invites
      = (Raised IntegrityError, env') /\
    length (members (tables env')) = 3%nat.
Proof.
  destruct (accept_of_a_member_raises Sample.with_invites Sample.invite_open 12)
    as (env' & Hrun & Hmem & _).
  - reflexivity.
  - vm_compute. discriminate.
  - reflexivity.
  - exists env'. split; [exact Hrun|]. rewrite Hmem. reflexivity.
Defined.

(** X4.  [is_expired] and [accept] draw the same line: read at the same
    clock value, a pending invite is refused by [accept] exactly when
    [is_expired] says true.  At the instant [expires_at] itself the
    invite is not expired and [accept] goes ahead. *)
Theorem expiry_agrees_with_accept env self user :
  invite_status self = InvitePending ->
  (fst (is_expired self env) = Returned true <->
   fst (accept self user env) = Returned false) /\
  (clock env (ticks env) = expires_at self ->
   fst (is_expired self env) = Returned false /\
   fst (accept self user env) <> Returned false).
Proof.
  intros Hst. apply is_pending_status in Hst.
  rewrite accept_cases. cbv zeta. rewrite Hst.
  unfold is_expired, bind, timezone_now, ret. cbn [fst].
  destruct (Z.leb_spec (clock env (ticks env)) (expires_at self)) as [Hle|Hgt];
    destruct (Z.ltb_spec (expires_at self) (clock env (ticks env))) as [Hlt|Hge];
    try lia.
  - split.
    + split; [discriminate|].
      destruct (is_member _ _ _); discriminate.
    + intros _. split; [reflexivity|]. destruct (is_member _ _ _); discriminate.
  - split; [split; reflexivity|]. intros Heq. lia.
Qed.

Lemma expiry_agrees_with_accept_witness :
  fst (is_expired Sample.invite_late Sample.with_invites) = Returned true /\
  fst (accept Sample.invite_late 14 Sample.with_invites) = Returned false.
Proof.
  destruct (expiry_agrees_with_accept Sample.with_invites Sample.invite_late 14)
    as [[Hto _] _]; [reflexivity|].
  split; [reflexivity|]. apply Hto. reflexivity.
Defined.

(** ** Who has a balance *)

Lemma fold_insert_lookup_inv {A V} (key : A -> nat) (val : A -> V) l k v :
  forall acc : gmap nat V,
  fold_left (fun b x => <[key x := val x]> b) l acc !! k = Some v ->
  (exists x, x ∈ l /\ key x = k /\ v = val x) \/ acc !! k = Some v.
Proof.
  induction l as [|x l IH]; intros acc H; [right; exact H|].
  cbn [fold_left] in H. destruct (IH _ H) as [(y & Hy & Hk & Hv)|Hacc].
  - left. exists y. split; [right; exact Hy|auto].
  - destruct (decide (key x = k)) as [Heq|Hne].
    + subst k. rewrite lookup_insert_eq in Hacc. injection Hacc as <-.
      left. exists x. split; [left|auto].
    + rewrite lookup_insert_ne in Hacc by exact Hne. right. exact Hacc.
Qed.

Lemma fold_insert_is_Some {A V} (key : A -> nat) (val : A -> V) l k :
  forall acc : gmap nat V,
  k ∈ map key l ->
  is_Some (fold_left (fun b y => <[key y := val y]> b) l acc !! k).
Proof.
  induction l as [|y l IH]; intros acc Hk.
  - apply elem_of_nil in Hk. contradiction.
  - cbn [fold_left]. destruct (decide (k ∈ map key l)) as [Hin|Hnin].
    + apply IH. exact Hin.
    + cbn [map] in Hk. apply elem_of_cons in Hk as [->|Hk]; [|contradiction].
      rewrite (fold_insert_untouched key val l (key y) _ Hnin).
      rewrite lookup_insert_eq. eauto.
Qed.

(** X5.  The dict of [calculate_balances] has an entry for the user of
    every member row of the ledger, whatever the member's status
    (invited, inactive and removed members included), and for nobody
    else.  Every entry carries its own key as user, was computed for a
    member row of that user, and has [balance = total_paid -
    total_share]. *)
Theorem balance_entries_are_the_ledger_members t ledger :
  let balances := calculate_balances ledger t in
  (forall k,
     is_Some (balances !! k) <->
     exists m, m ∈ members t /\ member_ledger m = ledger /\ member_user m = k) /\
  (forall k b,
     balances !! k = Some b ->
     balance_user b = k /\
     balance b = total_paid b - total_share b /\
     total_paid b = paid_by_user ledger k t /\
     exists m, m ∈ ledger_members ledger t /\ member_user m = k /\
               total_share b = member_total_share ledger m t).
Proof.
  cbv zeta. unfold calculate_balances.
  assert (Hmem : forall m, m ∈ ledger_members ledger t <->
                           m ∈ members t /\ member_ledger m = ledger).
  { intros m. unfold ledger_members.
    rewrite !list_elem_of_In, filter_In, Nat.eqb_eq. reflexivity. }
  split.
  - intros k. split.
    + intros [b Hb]. apply fold_insert_lookup_inv in Hb as [(m & Hm & Hk & _)|Hb].
      * apply Hmem in Hm as [Hm Hl]. eauto.
      * rewrite lookup_empty in Hb. discriminate.
    + intros (m & Hm & Hl & <-).
      apply (fold_insert_is_Some member_user).
      apply list_elem_of_In, in_map, list_elem_of_In. apply Hmem. auto.
  - intros k b Hb. apply fold_insert_lookup_inv in Hb as [(m & Hm & Hk & ->)|Hb].
    + cbn [balance_user balance total_paid total_share].
      split; [exact Hk|]. split; [reflexivity|].
      split; [rewrite member_total_paid_spec, Hk; reflexivity|].
      exists m. auto.
    + rewrite lookup_empty in Hb. discriminate.
Qed.

(** ** Settlement and balances *)

Lemma calculate_balances_reads t1 t2 ledger :
  members t1 = members t2 -> expenses t1 = expenses t2 ->
  splits t1 = splits t2 ->
  calculate_balances ledger t1 = calculate_balances ledger t2.
Proof.
  intros Hm He Hs.
  unfold calculate_balances, ledger_members, member_total_paid,
    member_total_share, ledger_expenses, expense_splits_of.
  rewrite Hm, He, Hs. reflexivity.
Qed.

Lemma calculate_balances_settlement t ledger f n :
  (forall s, split_expense (f s) = split_expense s /\
             split_member (f s) = split_member s /\
             split_amount (f s) = split_amount s) ->
  calculate_balances ledger (set_splits t (map f (splits t)) n) =
  calculate_balances ledger t.
Proof.
  intros Hf. unfold calculate_balances.
  change (ledger_members ledger (set_splits t (map f (splits t)) n))
    with (ledger_members ledger t).
  apply fold_left_ext_eq. intros b member.
  rewrite (member_total_share_settlement ledger member t f n Hf).
  reflexivity.
Qed.

Lemma NoDup_map_inj_on {A B} (f : A -> B) l x y :
  NoDup (map f l) -> x ∈ l -> y ∈ l -> f x = f y -> x = y.
Proof.
  induction l as [|z l IH]; intros Hnd Hx Hy Heq.
  - apply elem_of_nil in Hx. contradiction.
  - cbn [map] in Hnd. apply NoDup_cons in Hnd as [Hz Hnd].
    apply elem_of_cons in Hx as [->|Hx]; apply elem_of_cons in Hy as [->|Hy].
    + reflexivity.
    + exfalso. apply Hz. rewrite Heq.
      apply list_elem_of_In, in_map, list_elem_of_In. exact Hy.
    + exfalso. apply Hz. rewrite <- Heq.
      apply list_elem_of_In, in_map, list_elem_of_In. exact Hx.
    + apply IH; assumption.
Qed.

(** A rewriting of the table of splits that only settles rows leaves the
    balances alone. *)
Lemma balances_after_settling t t' ledger F :
  members t' = members t -> expenses t' = expenses t ->
  splits t' = map F (splits t) ->
  (forall y, y ∈ splits t ->
             F y = y \/ exists now method, F y = settled_row y now method) ->
  calculate_balances ledger t' = calculate_balances ledger t.
Proof.
  intros Hm He Hs HF.
  set (f := fun y => mkSplit (split_pk y) (split_expense y) (split_member y)
                       (split_amount y) (split_shares y) (is_settled (F y))
                       (settled_at (F y)) (settlement_method (F y))).
  rewrite <- (calculate_balances_settlement t ledger f (split_seq t)).
  2:{ intros s. repeat split. }
  apply calculate_balances_reads; [exact Hm|exact He|].
  rewrite Hs. cbn [splits set_splits]. apply map_ext_in. intros y Hy.
  apply list_elem_of_In in Hy. unfold f.
  destruct (HF y Hy) as [Hid|(now & method & Hid)]; rewrite Hid;
    [destruct y|]; reflexivity.
Qed.

(** X7.  Settling never moves a balance.  [calculate_balances] reads
    neither the payments nor the settlement columns, so the balances of a
    ledger are the same before and after [confirm_payment] of any
    payment, before and after [settle] of a stored split, and whatever
    payments are recorded: a member's balance counts what was paid for
    expenses and what was split, not what was paid back. *)
Theorem settling_keeps_balances env ledger :
  unique_split_pks (tables env) ->
  (forall p u,
     calculate_balances ledger (tables (snd (confirm_payment p u env))) =
     calculate_balances ledger (tables env)) /\
  (forall s method,
     s ∈ splits (tables env) ->
     calculate_balances ledger (tables (snd (settle s method env))) =
     calculate_balances ledger (tables env)) /\
  (forall rows,
     calculate_balances ledger (set_payments (tables env) rows) =
     calculate_balances ledger (tables env)).
Proof.
  intros Hnd. split; [|split].
  - intros p u. destruct (confirm_payment_effect env p u) as (F & Hrun & HF).
    cbv zeta in Hrun, HF. rewrite Hrun. cbn [snd tables].
    apply (balances_after_settling _ _ ledger F); try reflexivity.
    intros y Hy. destruct (HF y) as (_ & [Hid|(s & i & Hs & Hpk & _ & _ & HFy)] & _).
    + left. exact Hid.
    + right. rewrite (NoDup_map_inj_on split_pk _ s y Hnd Hs Hy Hpk) in HFy.
      eauto.
  - intros s method Hs. rewrite settle_eq. cbn [snd tables].
    set (now := clock env (ticks env)).
    rewrite (upsert_present split_pk (settled_row s now method)).
    2:{ change (split_pk (settled_row s now method)) with (split_pk s).
        apply list_elem_of_In, in_map, list_elem_of_In. exact Hs. }
    apply (balances_after_settling _ _ ledger
             (fun y => if Nat.eqb (split_pk y) (split_pk (settled_row s now method))
                       then settled_row s now method else y));
      try reflexivity.
    intros y Hy. cbn [split_pk settled_row].
    destruct (Nat.eqb_spec (split_pk y) (split_pk s)) as [Heq|Hne]; [|left; reflexivity].
    right. rewrite (NoDup_map_inj_on split_pk _ s y Hnd Hs Hy (eq_sym Heq)). eauto.
  - intros rows. apply calculate_balances_reads; reflexivity.
Qed.

Lemma settling_keeps_balances_witness :
  calculate_balances 7
    (tables (snd (confirm_payment Sample.bob_pays 11 Sample.with_payment))) =
  calculate_balances 7 (tables Sample.with_payment).
Proof.
  destruct (settling_keeps_balances Sample.with_payment 7) as (Hconfirm & _).
  - unfold unique_split_pks. compute_done.
  - apply Hconfirm.
Defined.

(** ** What [settle] and [save] leave alone *)

(** X8.  [settle] has no guard and writes one row.  On a stored split
    (keys being distinct) it returns, and the table of splits afterwards
    is the old one with that row replaced by itself settled: same length,
    same keys, same pairs and amounts, every other row identical.  That
    holds whether or not the split was settled already: settling again
    overwrites [settled_at] and [settlement_method]. *)
Theorem settle_rewrites_one_row env s method :
  s ∈ splits (tables env) ->
  unique_split_pks (tables env) ->
  let now := clock env (ticks env) in
  exists env',
    settle s method env = (Returned tt, env') /\
    splits (tables env') =
      map (fun y => if Nat.eqb (split_pk y) (split_pk s)
                    then settled_row s now method else y)
          (splits (tables env)) /\
    map split_pk (splits (tables env')) = map split_pk (splits (tables env)) /\
    map split_pair (splits (tables env')) = map split_pair (splits (tables env)) /\
    map split_amount (splits (tables env')) =
      map split_amount (splits (tables env)) /\
    settled_row s now method ∈ splits (tables env') /\
    (forall y, y ∈ splits (tables env) -> y <> s -> y ∈ splits (tables env')) /\
    (forall y', y' ∈ splits (tables env') ->
                y' = settled_row s now method \/ (y' ∈ splits (tables env) /\ y' <> s)).
Proof.
  intros Hs Hnd now. eexists. split; [apply settle_eq|].
  cbn [tables splits set_splits]. fold now.
  assert (Hup : upsert split_pk (settled_row s now method) (splits (tables env)) =
                map (fun y => if Nat.eqb (split_pk y) (split_pk s)
                              then settled_row s now method else y)
                    (splits (tables env))).
  { apply (upsert_present split_pk (settled_row s now method)).
    change (split_pk (settled_row s now method)) with (split_pk s).
    apply list_elem_of_In, in_map, list_elem_of_In. exact Hs. }
  rewrite Hup.
  assert (Hrow : forall y, y ∈ splits (tables env) ->
            (if Nat.eqb (split_pk y) (split_pk s)
             then settled_row s now method else y) =
            if Nat.eqb (split_pk y) (split_pk s)
            then settled_row y now method else y).
  { intros y Hy. destruct (Nat.eqb_spec (split_pk y) (split_pk s)) as [Heq|];
      [|reflexivity].
    rewrite (NoDup_map_inj_on split_pk _ y s Hnd Hy Hs Heq). reflexivity. }
  split; [reflexivity|].
  split.
  { rewrite map_map. apply map_ext_in. intros y Hy.
    rewrite (Hrow y (proj2 (list_elem_of_In _ _) Hy)).
    destruct (Nat.eqb _ _); reflexivity. }
  split.
  { rewrite map_map. apply map_ext_in. intros y Hy.
    rewrite (Hrow y (proj2 (list_elem_of_In _ _) Hy)).
    destruct (Nat.eqb _ _); reflexivity. }
  split.
  { rewrite map_map. apply map_ext_in. intros y Hy.
    rewrite (Hrow y (proj2 (list_elem_of_In _ _) Hy)).
    destruct (Nat.eqb _ _); reflexivity. }
  split.
  { apply list_elem_of_In, in_map_iff. exists s.
    rewrite Nat.eqb_refl. split; [reflexivity|apply list_elem_of_In; exact Hs]. }
  split.
  - intros y Hy Hne. apply list_elem_of_In, in_map_iff. exists y.
    split; [|apply list_elem_of_In; exact Hy].
    destruct (Nat.eqb_spec (split_pk y) (split_pk s)) as [Heq|]; [|reflexivity].
    exfalso. apply Hne. exact (NoDup_map_inj_on split_pk _ y s Hnd Hy Hs Heq).
  - intros y' Hy'. apply list_elem_of_In, in_map_iff in Hy' as (y & <- & Hy).
    apply list_elem_of_In in Hy.
    destruct (Nat.eqb_spec (split_pk y) (split_pk s)) as [Heq|Hne]; [left; reflexivity|].
    right. split; [exact Hy|]. intros ->. contradiction.
Qed.

Lemma settle_rewrites_one_row_witness :
  exists env',
    settle (settled_row (mkSplit 2 1 2 10000 1 false None EmptyString) 1001 "cash")
           "bank" (snd (confirm_payment Sample.bob_pays 11 Sample.with_payment))
    = (Returned tt, env') /\
    map (fun y => (split_pk y, settled_at y, settlement_method y))
        (splits (tables env'))
    = [(1%nat, None, EmptyString); (2%nat, Some 1002, "bank"%string);
       (3%nat, None, EmptyString)].
Proof.
  destruct (settle_rewrites_one_row
              (snd (confirm_payment Sample.bob_pays 11 Sample.with_payment))
              (settled_row (mkSplit 2 1 2 10000 1 false None EmptyString) 1001 "cash")
              "bank")
    as (env' & Hrun & Hrows & _).
  - vm_compute. right. left.
  - unfold unique_split_pks. compute_done.
  - exists env'. split; [exact Hrun|]. rewrite Hrows. reflexivity.
Defined.

(** X9.  Splits are generated on the first save only.  [save] of an
    expense that has a key rewrites the expense row and nothing else: it
    returns, creates no split and changes none, also when the method is
    equal and the amount is new, so the splits keep the amounts computed
    from the old one. *)
Theorem saving_a_saved_expense env self k :
  expense_pk self = Some k ->
  exists env',
    SharedExpense_save self env = (Returned self, env') /\
    splits (tables env') = splits (tables env) /\
    split_seq (tables env') = split_seq (tables env) /\
    expense_seq (tables env') = expense_seq (tables env) /\
    members (tables env') = members (tables env) /\
    self ∈ expenses (tables env') /\
    (forall e, e ∈ expenses (tables env') ->
               e = self \/ (e ∈ expenses (tables env) /\ expense_pk e <> Some k)) /\
    (Some k ∈ map expense_pk (expenses (tables env)) ->
     map expense_pk (expenses (tables env')) =
     map expense_pk (expenses (tables env))).
Proof.
  intros Hk. unfold SharedExpense_save, bind, Model_save. rewrite Hk.
  cbn [andb ret]. eexists. split; [reflexivity|].
  cbn [tables splits split_seq expense_seq members expenses set_expenses].
  do 4 (split; [reflexivity|]).
  assert (Hhas : forall e, has_pk (expense_pk e) k = true <-> expense_pk e = Some k).
  { intros e. unfold has_pk. destruct (expense_pk e) as [j|]; [|split; discriminate].
    rewrite Nat.eqb_eq. split; congruence. }
  destruct (existsb (fun e => has_pk (expense_pk e) k) (expenses (tables env))) eqn:E.
  - split; [|split].
    + apply existsb_exists in E as (e & He & Hpk).
      apply list_elem_of_In, in_map_iff. exists e. rewrite Hpk. auto.
    + intros e He. apply list_elem_of_In, in_map_iff in He as (e0 & <- & He0).
      destruct (has_pk (expense_pk e0) k) eqn:E0; [left; reflexivity|].
      right. split; [apply list_elem_of_In; exact He0|].
      intros H. apply Hhas in H. congruence.
    + intros _. rewrite map_map. apply map_ext. intros e.
      destruct (has_pk (expense_pk e) k) eqn:E0; [|reflexivity].
      apply Hhas in E0. congruence.
  - split; [apply elem_of_app; right; left|]. split.
    + intros e He. apply elem_of_app in He as [He|He].
      * right. split; [exact He|]. intros H.
        assert (Hex : existsb (fun e => has_pk (expense_pk e) k)
                        (expenses (tables env)) = true).
        { apply existsb_exists. exists e.
          split; [apply list_elem_of_In; exact He|apply Hhas; exact H]. }
        congruence.
      * apply list_elem_of_singleton in He. left. exact He.
    + intros Hin. apply list_elem_of_In, in_map_iff in Hin as (e & He & Hin).
      assert (Hex : existsb (fun e => has_pk (expense_pk e) k)
                      (expenses (tables env)) = true).
      { apply existsb_exists. exists e. split; [exact Hin|apply Hhas; exact He]. }
      congruence.
Qed.

Lemma saving_a_saved_expense_witness :
  exists env',
    SharedExpense_save
      (mkExpense (Some 1%nat) 7 60000 11 Equal ExpenseApproved)
      Sample.after_dinner
    = (Returned (mkExpense (Some 1%nat) 7 60000 11 Equal ExpenseApproved), env') /\
    map split_amount (splits (tables env')) = [10000; 10000; 10000].
Proof.
  destruct (saving_a_saved_expense Sample.after_dinner
              (mkExpense (Some 1%nat) 7 60000 11 Equal ExpenseApproved) 1)
    as (env' & Hrun & Hsplits & _); [reflexivity|].
  exists env'. split; [exact Hrun|]. rewrite Hsplits. reflexivity.
Defined.

(** X10.  Saving a new expense keeps the tables well formed, whether the
    call returns or raises: at most one split per (expense, member)
    pair, distinct expense keys, and every expense key and every split's
    expense key issued by the sequence.  The new expense takes the next
    key of the sequence. *)
Theorem saving_a_new_expense_keeps_constraints env self :
  expense_pk self = None ->
  unique_pairs (tables env) ->
  unique_expense_pks (tables env) ->
  expense_keys_issued (tables env) ->
  splits_reference_issued (tables env) ->
  let t := tables env in
  let t' := tables (snd (SharedExpense_save self env)) in
  unique_pairs t' /\ unique_expense_pks t' /\
  expense_keys_issued t' /\ splits_reference_issued t' /\
  expense_seq t' = S (expense_seq t) /\
  map expense_pk (expenses t') = map expense_pk (expenses t) ++ [Some (expense_seq t)].
Proof.
  intros Hpk Hup [Hnd Hsome] Hkeys Hfk t t'.
  set (self' := mkExpense (Some (expense_seq t)) (expense_ledger self)
                  (expense_amount self) (expense_paid_by self)
                  (expense_split_method self) (expense_status self)).
  set (env1 := mkEnv (clock env) (ticks env)
                 (set_expenses t (expenses t ++ [self']) (S (expense_seq t)))).
  (* what the tables are after the call: those of [env1] with rows appended *)
  assert (Hshape : exists added,
    t' = set_splits (tables env1) (splits t ++ added)
           (split_seq t + length added) /\
    NoDup (map split_pair (splits t ++ added)) /\
    Forall (fun s => split_expense s = expense_seq t) added).
  { subst t'. unfold SharedExpense_save, bind at 1, Model_save. rewrite Hpk.
    fold t self' env1. cbn [andb].
    destruct (is_equal self') eqn:Heq.
    2:{ exists []. cbn [snd ret tables]. rewrite app_nil_r, Nat.add_0_r.
        split; [destruct t; reflexivity|]. split; [exact Hup|constructor]. }
    unfold bind.
    destruct (active_members (expense_ledger self') (tables env1)) eqn:Hact.
    - rewrite (create_equal_splits_no_member self' env1 Hact). cbn [snd tables].
      exists []. rewrite app_nil_r, Nat.add_0_r.
      split; [destruct t; reflexivity|]. split; [exact Hup|constructor].
    - destruct (create_equal_splits_returns self' (expense_seq t) env1)
        as (added & Hrun & Hnd' & Hall); [reflexivity|exact Hup| |].
      { rewrite Hact. discriminate. }
      rewrite Hrun. cbn [snd tables]. exists added.
      split; [reflexivity|]. split; [exact Hnd'|].
      eapply Forall_impl; [exact Hall|]. cbn beta. tauto. }
  destruct Hshape as (added & -> & Hnd' & Hall).
  unfold env1. cbn [tables set_splits set_expenses splits expenses expense_seq].
  unfold unique_pairs, unique_expense_pks, expense_keys_issued,
    splits_reference_issued.
  cbn [splits expenses expense_seq set_splits set_expenses].
  assert (Hfresh : Some (expense_seq t) ∉ map expense_pk (expenses t)).
  { intros Hin. apply list_elem_of_In, in_map_iff in Hin as (e & He & Hin).
    unfold expense_keys_issued in Hkeys. rewrite Forall_forall in Hkeys.
    specialize (Hkeys e (proj2 (list_elem_of_In _ _) Hin)).
    fold t in Hkeys. rewrite He in Hkeys. lia. }
  split; [exact Hnd'|]. split; [split|].
  - rewrite map_app. apply NoDup_app. split; [exact Hnd|].
    split; [|apply NoDup_singleton].
    intros x Hx Hx'. cbn in Hx'. apply list_elem_of_singleton in Hx'. subst x.
    contradiction.
  - apply Forall_app. split; [exact Hsome|]. constructor; [discriminate|constructor].
  - split; [|split; [|split; [reflexivity|]]].
    + apply Forall_app. split.
      * eapply Forall_impl; [exact Hkeys|]. intros e He. cbn beta in *.
        fold t in He. destruct (expense_pk e); [lia|exact He].
      * constructor; [cbn; lia|constructor].
    + apply Forall_app. split.
      * eapply Forall_impl; [exact Hfk|]. intros s Hs. cbn beta in *.
        fold t in Hs. lia.
      * eapply Forall_impl; [exact Hall|]. intros s Hs. cbn beta in *. lia.
    + rewrite map_app. reflexivity.
Qed.

Lemma saving_a_new_expense_keeps_constraints_witness :
  unique_pairs (tables (snd (SharedExpense_save Sample.taxi Sample.after_dinner))) /\
  expense_seq (tables (snd (SharedExpense_save Sample.taxi Sample.after_dinner)))
    = 3%nat.
Proof.
  destruct (saving_a_new_expense_keeps_constraints Sample.after_dinner Sample.taxi)
    as (Hu & _ & _ & _ & Hseq & _).
  - reflexivity.
  - unfold unique_pairs. compute_done.
  - unfold unique_expense_pks. split; [compute_done|].
    vm_compute. repeat constructor; discriminate.
  - unfold expense_keys_issued. vm_compute. repeat constructor.
  - unfold splits_reference_issued. vm_compute. repeat constructor.
  - split; [exact Hu|exact Hseq].
Defined.

(** ** Balances cancel out *)

Lemma sum_filter_indicator {A} (q : A -> bool) (v : A -> Z) l :
  Decimal.sum (map v (List.filter q l)) =
  Decimal.sum (map (fun x => if q x then v x else 0) l).
Proof.
  induction l as [|x l IH]; [reflexivity|]. cbn [List.filter map].
  destruct (q x); cbn [map]; rewrite !sum_cons, IH; lia.
Qed.

Lemma sum_map_ext_in {A} (f g : A -> Z) l :
  (forall x, x ∈ l -> f x = g x) ->
  Decimal.sum (map f l) = Decimal.sum (map g l).
Proof.
  intros H. f_equal. apply map_ext_in. intros x Hx. apply H.
  apply list_elem_of_In. exact Hx.
Qed.

Lemma sum_map_zero {A} (l : list A) : Decimal.sum (map (fun _ => 0) l) = 0.
Proof. induction l as [|x l IH]; [reflexivity|]. cbn [map]. rewrite sum_cons, IH. lia. Qed.

Lemma sum_map_sub {A} (f g : A -> Z) l :
  Decimal.sum (map (fun x => f x - g x) l) =
  Decimal.sum (map f l) - Decimal.sum (map g l).
Proof.
  induction l as [|x l IH]; [reflexivity|].
  cbn [map]. rewrite !sum_cons, IH. lia.
Qed.

Lemma sum_fubini {A B} (f : A -> B -> Z) la lb :
  Decimal.sum (map (fun a => Decimal.sum (map (fun b => f a b) lb)) la) =
  Decimal.sum (map (fun b => Decimal.sum (map (fun a => f a b) la)) lb).
Proof.
  induction la as [|a la IH].
  - cbn [map]. rewrite sum_map_zero. reflexivity.
  - cbn [map]. rewrite sum_cons, IH.
    rewrite <- sum_map_add. apply sum_map_ext_in. intros b _.
    rewrite sum_cons. reflexivity.
Qed.

Lemma sum_single {A} (key : A -> nat) l k c :
  NoDup (map key l) -> k ∈ map key l ->
  Decimal.sum (map (fun x => if Nat.eqb (key x) k then c else 0) l) = c.
Proof.
  induction l as [|x l IH]; intros Hnd Hk.
  - apply elem_of_nil in Hk. contradiction.
  - cbn [map] in *. apply NoDup_cons in Hnd as [Hx Hnd]. rewrite sum_cons.
    destruct (Nat.eqb_spec (key x) k) as [Heq|Hne].
    + subst k.
      rewrite (sum_map_ext_in _ (fun _ => 0)), sum_map_zero; [lia|].
      intros y Hy. destruct (Nat.eqb_spec (key y) (key x)) as [E|]; [|reflexivity].
      exfalso. apply Hx. rewrite <- E.
      apply list_elem_of_In, in_map, list_elem_of_In. exact Hy.
    + apply elem_of_cons in Hk as [Hk|Hk]; [congruence|].
      rewrite (IH Hnd Hk). lia.
Qed.

Lemma sum_Permutation l l' : l ≡ₚ l' -> Decimal.sum l = Decimal.sum l'.
Proof.
  induction 1 as [|x l l' _ IH|x y l|l l' l'' _ IH1 _ IH2].
  - reflexivity.
  - rewrite !sum_cons, IH. reflexivity.
  - rewrite !sum_cons. lia.
  - congruence.
Qed.

(** The sum over the dict built by the outer loop, for distinct keys. *)
Lemma fold_insert_sum {A V} (key : A -> nat) (val : A -> V) (g : V -> Z) l :
  forall acc : gmap nat V,
  NoDup (map key l) ->
  (forall x, x ∈ l -> acc !! key x = None) ->
  Decimal.sum (map (fun entry => g (snd entry))
                 (map_to_list (fold_left (fun b x => <[key x := val x]> b) l acc))) =
  Decimal.sum (map (fun entry => g (snd entry)) (map_to_list acc)) +
  Decimal.sum (map (fun x => g (val x)) l).
Proof.
  induction l as [|x l IH]; intros acc Hnd Hfree.
  - cbn [fold_left map]. unfold Decimal.sum at 3. cbn. lia.
  - cbn [map] in Hnd. apply NoDup_cons in Hnd as [Hx Hnd].
    cbn [fold_left map]. rewrite IH; [|exact Hnd|].
    + rewrite sum_cons.
      rewrite (sum_Permutation _
                 (map (fun entry => g (snd entry))
                      ((key x, val x) :: map_to_list acc))).
      * cbn [map snd]. rewrite sum_cons. lia.
      * apply Permutation_map. apply map_to_list_insert. apply Hfree. left.
    + intros y Hy. rewrite lookup_insert_ne.
      * apply Hfree. right. exact Hy.
      * intros Heq. apply Hx. rewrite Heq.
        apply list_elem_of_In, in_map, list_elem_of_In. exact Hy.
Qed.

Lemma total_paid_of_members ledger t :
  unique_ledger_user t ->
  payers_are_members ledger t ->
  Decimal.sum (map (fun m => member_total_paid ledger m t)
                 (ledger_members ledger t)) =
  Decimal.sum (map expense_amount (ledger_expenses ledger t)).
Proof.
  intros Hlu Hpay. unfold member_total_paid.
  rewrite (sum_map_ext_in _
    (fun m => Decimal.sum
                (map (fun e => if Nat.eqb (member_user m) (expense_paid_by e)
                               then expense_amount e else 0)
                     (ledger_expenses ledger t)))).
  2:{ intros m _. rewrite sum_filter_indicator. apply sum_map_ext_in.
      intros e _. rewrite Nat.eqb_sym. reflexivity. }
  rewrite sum_fubini. apply sum_map_ext_in. intros e He.
  apply sum_single; [apply ledger_members_users; exact Hlu|].
  unfold payers_are_members in Hpay. rewrite Forall_forall in Hpay.
  apply Hpay. exact He.
Qed.

Lemma total_share_of_members ledger t :
  unique_member_pks t -> unique_pairs t -> unique_expense_pks t ->
  splits_assigned_to_members ledger t ->
  Decimal.sum (map (fun m => member_total_share ledger m t)
                 (ledger_members ledger t)) =
  Decimal.sum (map split_amount (List.filter (of_ledger ledger t) (splits t))).
Proof.
  intros Hmp Hup Hue Hassigned.
  rewrite (sum_map_ext_in _
    (fun m => Decimal.sum
                (map (fun s => if Nat.eqb (member_pk m) (split_member s)
                               then (if of_ledger ledger t s
                                     then split_amount s else 0)
                               else 0)
                     (splits t)))).
  2:{ intros m _. rewrite (member_total_share_spec _ _ _ Hup Hue).
      unfold share_of_member. rewrite sum_filter_indicator.
      apply sum_map_ext_in. intros s _. rewrite Nat.eqb_sym.
      destruct (Nat.eqb _ _); reflexivity. }
  rewrite sum_fubini, sum_filter_indicator. apply sum_map_ext_in. intros s Hs.
  destruct (of_ledger ledger t s) eqn:Hof.
  - apply sum_single.
    + unfold ledger_members. apply NoDup_map_filter. exact Hmp.
    + unfold splits_assigned_to_members in Hassigned.
      rewrite Forall_forall in Hassigned. apply Hassigned; assumption.
  - rewrite (sum_map_ext_in _ (fun _ => 0)); [apply sum_map_zero|].
    intros m _. destruct (Nat.eqb _ _); reflexivity.
Qed.

Lemma splits_of_ledger_by_expense ledger t :
  unique_expense_pks t ->
  Decimal.sum (map split_amount (List.filter (of_ledger ledger t) (splits t))) =
  Decimal.sum
    (map (fun e =>
            Decimal.sum
              (map split_amount
                 (List.filter (fun s => has_pk (expense_pk e) (split_expense s))
                              (splits t))))
         (ledger_expenses ledger t)).
Proof.
  intros [Hnd _].
  rewrite (sum_map_ext_in
    (fun e => Decimal.sum
                (map split_amount
                   (List.filter (fun s => has_pk (expense_pk e) (split_expense s))
                                (splits t))))
    (fun e => Decimal.sum
                (map (fun s => if has_pk (expense_pk e) (split_expense s) && true
                               then split_amount s else 0)
                     (splits t)))).
  2:{ intros e _. rewrite sum_filter_indicator. apply sum_map_ext_in.
      intros s _. rewrite andb_true_r. reflexivity. }
  rewrite sum_fubini, sum_filter_indicator. apply sum_map_ext_in. intros s _.
  rewrite (count_once (ledger_expenses ledger t) (split_expense s) true
             (split_amount s)).
  - reflexivity.
  - unfold ledger_expenses. apply NoDup_map_filter. exact Hnd.
Qed.

(** X6.  In a ledger where every expense was paid by the user of a member
    and every split of its expenses is assigned to a member (the tables
    satisfying their uniqueness constraints), the balances of
    [calculate_balances] add up to the total of the expenses minus the
    total of their splits.  So they cancel out exactly when the splits
    account for the expenses, in particular when every expense is fully
    split; otherwise the sum of the balances is the amount left
    unallocated. *)
Theorem balances_add_up t ledger :
  unique_ledger_user t -> unique_member_pks t ->
  unique_pairs t -> unique_expense_pks t ->
  payers_are_members ledger t ->
  splits_assigned_to_members ledger t ->
  sum_of_balances (calculate_balances ledger t) =
    Decimal.sum (map expense_amount (ledger_expenses ledger t))
    - Decimal.sum (map split_amount (List.filter (of_ledger ledger t) (splits t))) /\
  (expenses_fully_split ledger t ->
   sum_of_balances (calculate_balances ledger t) = 0).
Proof.
  intros Hlu Hmp Hup Hue Hpay Hassigned.
  assert (Hsum : sum_of_balances (calculate_balances ledger t) =
    Decimal.sum (map expense_amount (ledger_expenses ledger t))
    - Decimal.sum (map split_amount (List.filter (of_ledger ledger t) (splits t)))).
  { unfold sum_of_balances, calculate_balances.
    rewrite (fold_insert_sum member_user
               (fun member =>
                  mkBalance (member_user member)
                    (member_total_paid ledger member t)
                    (member_total_share ledger member t)
                    (member_total_paid ledger member t
                     - member_total_share ledger member t))
               balance (ledger_members ledger t) ∅
               (ledger_members_users ledger t Hlu)).
    2:{ intros m _. apply lookup_empty. }
    rewrite map_to_list_empty. cbn [map balance].
    rewrite (sum_map_sub (fun m => member_total_paid ledger m t)
                         (fun m => member_total_share ledger m t)).
    rewrite (total_paid_of_members ledger t Hlu Hpay).
    rewrite (total_share_of_members ledger t Hmp Hup Hue Hassigned).
    unfold Decimal.sum at 1. cbn [fold_right]. lia. }
  split; [exact Hsum|].
  intros Hfull. rewrite Hsum, (splits_of_ledger_by_expense ledger t Hue).
  rewrite (sum_map_ext_in
             (fun e => Decimal.sum
                         (map split_amount
                            (List.filter
                               (fun s => has_pk (expense_pk e) (split_expense s))
                               (splits t))))
             expense_amount); [lia|].
  intros e He. unfold expenses_fully_split in Hfull.
  rewrite Forall_forall in Hfull. apply Hfull. exact He.
Qed.

Lemma balances_add_up_witness :
  sum_of_balances
    (calculate_balances 7
       (tables (snd (SharedExpense_save Sample.taxi
                       (Sample.env_of Sample.three_members))))) = 1.
Proof.
  destruct (balances_add_up
              (tables (snd (SharedExpense_save Sample.taxi
                              (Sample.env_of Sample.three_members)))) 7)
    as [Hsum _].
  - unfold unique_ledger_user. compute_done.
  - unfold unique_member_pks. compute_done.
  - unfold unique_pairs. compute_done.
  - unfold unique_expense_pks. split; [compute_done|].
    vm_compute. repeat constructor; discriminate.
  - unfold payers_are_members. vm_compute. repeat constructor.
  - unfold splits_assigned_to_members. vm_compute.
    repeat constructor; intros _;
      repeat (first [left | right; left | right; right; left]).
  - rewrite Hsum. reflexivity.
Defined.

(** * Further properties of budgets *)

(** ** Recalculating what was spent *)

Lemma fold_upsert_elem {A} (pk : A -> nat) (upd : A -> A) l : forall rows r,
  r ∈ fold_left (fun rows i => upsert pk (upd i) rows) l rows ->
  (exists i, i ∈ l /\ r = upd i) \/
  (r ∈ rows /\ forall i, i ∈ l -> pk r <> pk (upd i)).
Proof.
  induction l as [|x l IH]; intros rows r Hr.
  - right. split; [exact Hr|]. intros i Hi. apply elem_of_nil in Hi. contradiction.
  - cbn [fold_left] in Hr. destruct (IH _ _ Hr) as [(i & Hi & ->)|[Hin Hne]].
    + left. exists i. split; [right; exact Hi|reflexivity].
    + apply upsert_elem_inv in Hin as [->|[Hin Hx]].
      * left. exists x. split; [left|reflexivity].
      * right. split; [exact Hin|]. intros i Hi.
        apply elem_of_cons in Hi as [->|Hi]; [exact Hx|apply Hne; exact Hi].
Qed.

(** What [calculate_spent_amount] returns and writes. *)
Lemma calculate_spent_amount_effect self env :
  let t := tables env in
  let spent := Decimal.sum (map (fun i => item_spent self i t) (items_of self t)) in
  let self' :=
    Budgets.mkBudget (Budgets.budget_pk self) (Budgets.budget_user self)
      (Budgets.period_start_date self) (Budgets.period_end_date self)
      (Budgets.total_budget_amount self)
      (Budgets.alert_threshold_percentage self)
      spent (Budgets.total_budget_amount self - spent)
      (Budgets.percent_of spent (Budgets.total_budget_amount self))
      (Some (clock env (ticks env))) (Budgets.alert_sent_at self) in
  Budgets.calculate_spent_amount self env =
  (Returned (self', spent),
   mkEnv (clock env) (S (ticks env))
     (Budgets.mkBudgetTables
        (upsert Budgets.budget_pk self' (Budgets.budgets t))
        (fold_left (fun rows i =>
                      upsert Budgets.item_pk (recalculated_item self i t) rows)
                   (items_of self t) (Budgets.budget_items t))
        (Budgets.transactions t))).
Proof.
  cbv zeta. unfold Budgets.calculate_spent_amount, bind at 1, query.
  fold (items_of self (tables env)). unfold bind at 1.
  match goal with
  | |- context [Budgets.for_fold ?l ?a ?b] => set (body := b)
  end.
  assert (Hloop : forall l acc rows,
    Budgets.for_fold l acc body
      (mkEnv (clock env) (ticks env)
         (Budgets.mkBudgetTables (Budgets.budgets (tables env)) rows
            (Budgets.transactions (tables env)))) =
    (Returned (acc + Decimal.sum (map (fun i => item_spent self i (tables env)) l)),
     mkEnv (clock env) (ticks env)
       (Budgets.mkBudgetTables (Budgets.budgets (tables env))
          (fold_left (fun rows i =>
                        upsert Budgets.item_pk
                          (recalculated_item self i (tables env)) rows) l rows)
          (Budgets.transactions (tables env))))).
  { induction l as [|i l IH]; intros acc rows.
    - cbn [Budgets.for_fold map fold_left]. unfold ret, Decimal.sum. cbn [fold_right].
      rewrite Z.add_0_r. reflexivity.
    - cbn [Budgets.for_fold map fold_left]. unfold bind at 1.
      unfold body at 1. unfold bind at 1, query.
      unfold bind at 1, Budgets.BudgetItem_save, modify. unfold ret at 1.
      cbn [tables clock ticks Budgets.budgets Budgets.budget_items
             Budgets.transactions].
      change (Budgets.item_transactions self i
                (Budgets.mkBudgetTables (Budgets.budgets (tables env)) rows
                   (Budgets.transactions (tables env))))
        with (Budgets.item_transactions self i (tables env)).
      fold (item_spent self i (tables env)).
      fold (recalculated_item self i (tables env)).
      rewrite IH, sum_cons. do 2 f_equal. lia. }
  destruct env as [c k [bs items txns]]. cbn [tables clock ticks] in *.
  cbn [Budgets.budgets Budgets.budget_items Budgets.transactions] in *.
  rewrite Hloop. unfold bind, timezone_now, Budgets.Budget_save, modify, ret.
  cbn [clock ticks tables Budgets.budgets Budgets.budget_items Budgets.transactions].
  rewrite Z.add_0_l. reflexivity.
Qed.





(** X12.  After [calculate_spent_amount] every stored item of the budget
    is the item as recalculated: [spent_amount] is the total of its
    matching transactions and [remaining_amount] is its [variance], so the
    item [is_over_budget] exactly when its [remaining_amount] is
    negative.  Items of other budgets are left as they were. *)
Theorem items_after_recalculation self env r :
  let t := tables env in
  let t' := tables (snd (Budgets.calculate_spent_amount self env)) in
  r ∈ Budgets.budget_items t' ->
  (Budgets.item_budget r = Budgets.budget_pk self ->
   (exists i, i ∈ items_of self t /\ r = recalculated_item self i t) /\
   Budgets.item_remaining_amount r = variance r /\
   (is_over_budget r = true <-> Budgets.item_remaining_amount r < 0)) /\
  (Budgets.item_budget r <> Budgets.budget_pk self -> r ∈ Budgets.budget_items t).
Proof.
  cbv zeta. rewrite calculate_spent_amount_effect. cbv zeta.
  cbn [snd tables Budgets.budget_items]. intros Hr.
  apply fold_upsert_elem in Hr as [(i & Hi & ->)|[Hin Hne]].
  - assert (Hb : Budgets.item_budget i = Budgets.budget_pk self).
    { unfold items_of in Hi. apply list_elem_of_In, filter_In in Hi as [_ Hi].
      apply Nat.eqb_eq. exact Hi. }
    split.
    + intros _. split; [eauto|].
      unfold variance, is_over_budget.
      cbn [recalculated_item Budgets.item_remaining_amount Budgets.budgeted_amount
             Budgets.spent_amount].
      split; [reflexivity|]. rewrite Z.ltb_lt. lia.
    + intros H. exfalso. apply H. exact Hb.
  - split; [|intros _; exact Hin].
    intros Hb. exfalso. apply (Hne r); [|reflexivity].
    unfold items_of. apply list_elem_of_In, filter_In.
    split; [apply list_elem_of_In; exact Hin|apply Nat.eqb_eq; exact Hb].
Qed.

Lemma items_after_recalculation_witness :
  Budgets.item_remaining_amount
    (recalculated_item Sample.budget0 (Budgets.mkItem 2 1 4 20000 0 20000 (inject_Z 0))
       Sample.busy_tables) = -5000 /\
  is_over_budget
    (recalculated_item Sample.budget0 (Budgets.mkItem 2 1 4 20000 0 20000 (inject_Z 0))
       Sample.busy_tables) = true.
Proof.
  destruct (items_after_recalculation Sample.budget0 Sample.busy_env
              (recalculated_item Sample.budget0
                 (Budgets.mkItem 2 1 4 20000 0 20000 (inject_Z 0))
                 Sample.busy_tables))
    as [Hmine _].
  - vm_compute. right. left.
  - destruct Hmine as (_ & Hrem & Hover); [reflexivity|].
    split; [rewrite Hrem; reflexivity|]. apply Hover. rewrite Hrem. reflexivity.
Defined.

(** ** When the alert fires *)

Lemma percent_reaches thr spent total :
  0 < total ->
  Qle (inject_Z thr) (Budgets.percent_of spent total) <->
  thr * total <= 100 * spent.
Proof.
  intros Hpos. unfold Budgets.percent_of.
  destruct (Z.ltb_spec 0 total) as [_|]; [|lia].
  destruct total as [|p|p]; try lia.
  unfold Qdiv, Qinv, inject_Z. cbn [Qnum Qden].
  unfold Qle, Qmult. cbn [Qnum Qden].
  rewrite ?Pos.mul_1_l, ?Pos.mul_1_r. lia.
Qed.

(** X13.  Recalculating and then checking: for a budget of positive
    amount, [check_alert_threshold] called on the budget that
    [calculate_spent_amount] leaves fires exactly when no alert was sent
    yet and the counted spending has reached the threshold percentage of
    the budget, [threshold * total_budget_amount <= 100 * spent]; the
    budget it stores then has [alert_sent_at] set. *)
Theorem alert_after_recalculation self env :
  0 < Budgets.total_budget_amount self ->
  let t := tables env in
  let spent := Decimal.sum (map (fun i => item_spent self i t) (items_of self t)) in
  exists self1 env1 self2 fired env2,
    Budgets.calculate_spent_amount self env = (Returned (self1, spent), env1) /\
    Budgets.check_alert_threshold self1 env1 = (Returned (self2, fired), env2) /\
    (fired = true <->
     Budgets.alert_sent_at self = None /\
     Budgets.alert_threshold_percentage self * Budgets.total_budget_amount self
       <= 100 * spent) /\
    (fired = true -> Budgets.alert_sent_at self2 <> None) /\
    (fired = false -> self2 = self1 /\ env2 = env1).
Proof.
  intros Hpos t spent.
  pose proof (calculate_spent_amount_effect self env) as Hrun. cbv zeta in Hrun.
  fold t spent in Hrun.
  pose proof (percent_reaches (Budgets.alert_threshold_percentage self) spent
                (Budgets.total_budget_amount self) Hpos) as Hq.
  rewrite <- Qle_bool_iff in Hq.
  match type of Hrun with
  | _ = (Returned (?b, _), ?e) => exists b, e
  end.
  rewrite check_alert_threshold_cases.
  cbn [Budgets.alert_threshold_percentage Budgets.percentage_used
         Budgets.alert_sent_at].
  destruct (Qle_bool _ _); destruct (Budgets.alert_sent_at self) eqn:Hsent;
    cbn [andb]; cbv zeta; eexists _, _, _;
    (split; [exact Hrun|]); (split; [reflexivity|]).
  - split; [split; [discriminate|intros [H _]; discriminate]|].
    split; [discriminate|]. intros _. split; reflexivity.
  - split; [split; [intros _; split; [reflexivity|apply Hq; reflexivity]|reflexivity]|].
    split; [intros _; discriminate|discriminate].
  - split; [split; [discriminate|intros [H _]; discriminate]|].
    split; [discriminate|]. intros _. split; reflexivity.
  - split.
    + split; [discriminate|]. intros [_ H]. apply Hq in H. discriminate.
    + split; [discriminate|]. intros _. split; reflexivity.
Qed.

Lemma alert_after_recalculation_witness :
  exists self1 env1 self2 env2,
    Budgets.calculate_spent_amount Sample.budget0 Sample.busy_env
      = (Returned (self1, 70000), env1) /\
    Budgets.check_alert_threshold self1 env1 = (Returned (self2, true), env2).
Proof.
  destruct (alert_after_recalculation Sample.budget0 Sample.busy_env)
    as (self1 & env1 & self2 & fired & env2 & Hcalc & Hcheck & Hiff & _).
  - reflexivity.
  - exists self1, env1, self2, env2. split; [exact Hcalc|].
    assert (Hfired : fired = true).
    { apply Hiff. split; [reflexivity|]. vm_compute. discriminate. }
    rewrite <- Hfired. exact Hcheck.
Defined.

(** * Properties of budget goals *)

Lemma sum_app_list l1 l2 :
  Decimal.sum (l1 ++ l2) = Decimal.sum l1 + Decimal.sum l2.
Proof.
  induction l1 as [|x l1 IH]; [reflexivity|].
  cbn [app]. rewrite !sum_cons, IH. lia.
Qed.

Lemma ratio_le_100 current target :
  0 < target ->
  Qle (Qmult (Qdiv (inject_Z current) (inject_Z target)) (inject_Z 100))
      (inject_Z 100) <-> current <= target.
Proof.
  intros Hpos. destruct target as [|p|p]; try lia.
  unfold Qdiv, Qinv, inject_Z. cbn [Qnum Qden].
  unfold Qle, Qmult. cbn [Qnum Qden].
  rewrite ?Pos.mul_1_l, ?Pos.mul_1_r. lia.
Qed.

Lemma ratio_eq_100 current target :
  0 < target ->
  Qeq (Qmult (Qdiv (inject_Z current) (inject_Z target)) (inject_Z 100))
      (inject_Z 100) <-> current = target.
Proof.
  intros Hpos. destruct target as [|p|p]; try lia.
  unfold Qdiv, Qinv, inject_Z. cbn [Qnum Qden].
  unfold Qeq, Qmult. cbn [Qnum Qden].
  rewrite ?Pos.mul_1_l, ?Pos.mul_1_r. lia.
Qed.

(** X14.  For a goal, [remaining_amount] is never negative and is zero
    exactly when the current amount has reached the target;
    [progress_percentage] never exceeds 100, is 0 for a target that is
    not positive (no division), and for a positive target is 100 exactly
    when nothing remains. *)
Theorem goal_progress_and_remaining self :
  0 <= Goals.remaining_amount self /\
  (Goals.remaining_amount self = 0 <->
   Goals.target_amount self <= Goals.current_amount self) /\
  (0 < Goals.remaining_amount self ->
   Goals.remaining_amount self =
   Goals.target_amount self - Goals.current_amount self) /\
  Qle (Goals.progress_percentage self) (inject_Z 100) /\
  (Goals.target_amount self <= 0 ->
   Goals.progress_percentage self = inject_Z 0) /\
  (0 < Goals.target_amount self ->
   (Qeq (Goals.progress_percentage self) (inject_Z 100) <->
    Goals.remaining_amount self = 0)).
Proof.
  unfold Goals.remaining_amount, Goals.progress_percentage.
  split; [lia|]. split; [lia|]. split; [lia|].
  destruct (Z.ltb_spec 0 (Goals.target_amount self)) as [Hpos|Hneg].
  - cbv zeta.
    pose proof (ratio_le_100 (Goals.current_amount self) _ Hpos) as Hle.
    pose proof (ratio_eq_100 (Goals.current_amount self) _ Hpos) as Heq.
    destruct (Qle_bool _ (inject_Z 100)) eqn:E.
    + apply Qle_bool_iff in E. split; [exact E|]. split; [lia|].
      intros _. apply Hle in E. rewrite Heq. lia.
    + split; [apply Qle_refl|]. split; [lia|]. intros _.
      split; [intros _|intros _; reflexivity].
      assert (Hnot : ~ Goals.current_amount self <= Goals.target_amount self).
      { intros H. apply Hle, Qle_bool_iff in H. congruence. }
      lia.
  - split; [unfold Qle; cbn; lia|]. split; [reflexivity|lia].
Qed.

Lemma fits_true c : Goals.fits c = true <-> Z.abs c < 10 ^ 15.
Proof. unfold Goals.fits. apply Z.ltb_lt. Qed.

(** X15.  [add_contribution], amounts fitting their columns, returns and
    does three things: the goal is stored with [current_amount]
    increased by the amount; exactly one contribution row is appended,
    for this goal and of this amount; and the goal is completed when the
    new amount reaches the target.  It never reopens a goal: a completed
    goal stays completed when a negative amount takes it back under the
    target.  The difference between [current_amount] and the total of the
    goal's contributions is the same before and after. *)
Theorem add_contribution_records date_of self amount description env :
  Goals.fits (Goals.target_amount self) = true ->
  Goals.fits (Goals.current_amount self + amount) = true ->
  Goals.fits amount = true ->
  let t := tables env in
  exists self' env',
    Goals.add_contribution date_of self amount description env
      = (Returned self', env') /\
    Goals.goal_pk self' = Goals.goal_pk self /\
    Goals.current_amount self' = Goals.current_amount self + amount /\
    Goals.target_amount self' = Goals.target_amount self /\
    (Goals.goal_status self' = Goals.GoalCompleted <->
     Goals.target_amount self <= Goals.current_amount self + amount \/
     Goals.goal_status self = Goals.GoalCompleted) /\
    (Goals.current_amount self + amount < Goals.target_amount self ->
     Goals.goal_status self' = Goals.goal_status self /\
     Goals.completion_date self' = Goals.completion_date self) /\
    (Goals.target_amount self <= Goals.current_amount self + amount ->
     Goals.completion_date self' = Some (date_of (clock env (ticks env)))) /\
    self' ∈ Goals.goals (tables env') /\
    (exists c,
       Goals.contributions (tables env') = Goals.contributions t ++ [c] /\
       Goals.contribution_goal c = Goals.goal_pk self /\
       Goals.contribution_amount c = amount) /\
    Goals.contributed (Goals.goal_pk self) (tables env')
      - Goals.current_amount self' =
    Goals.contributed (Goals.goal_pk self) t - Goals.current_amount self.
Proof.
  intros Ht Hc Ha t. unfold Goals.add_contribution.
  destruct (Z.leb_spec (Goals.target_amount self)
              (Goals.current_amount self + amount)) as [Hreach|Hshort].
  - unfold bind at 1. unfold bind at 1, timezone_now, ret at 1.
    unfold bind at 1, Goals.BudgetGoal_save.
    cbn [Goals.target_amount Goals.current_amount]. rewrite Ht, Hc. cbn [andb].
    unfold modify. unfold bind at 1, Goals.BudgetGoalContribution_create.
    unfold bind at 1, timezone_now. rewrite Ha.
    cbn [clock ticks tables Goals.goals Goals.contributions Goals.contribution_seq
           Goals.goal_pk].
    unfold ret. eexists _, _. split; [reflexivity|].
    cbn [Goals.goal_pk Goals.current_amount Goals.target_amount Goals.goal_status
           Goals.completion_date tables Goals.goals Goals.contributions].
    do 3 (split; [reflexivity|]).
    split; [split; [intros _; left; exact Hreach|reflexivity]|].
    split; [intros H; lia|]. split; [reflexivity|].
    split; [apply upsert_elem|].
    split; [eexists; split; [reflexivity|split; reflexivity]|].
    unfold Goals.contributed. cbn [Goals.contributions].
    rewrite List.filter_app, map_app, sum_app_list.
    cbn [List.filter Goals.contribution_goal]. rewrite Nat.eqb_refl.
    cbn [map Goals.contribution_amount]. rewrite sum_cons.
    change (Decimal.sum []) with 0. fold t. lia.
  - unfold bind at 1. unfold ret at 1.
    unfold bind at 1, Goals.BudgetGoal_save.
    cbn [Goals.target_amount Goals.current_amount]. rewrite Ht, Hc. cbn [andb].
    unfold modify. unfold bind at 1, Goals.BudgetGoalContribution_create.
    unfold bind at 1, timezone_now. rewrite Ha.
    cbn [clock ticks tables Goals.goals Goals.contributions Goals.contribution_seq
           Goals.goal_pk].
    unfold ret. eexists _, _. split; [reflexivity|].
    cbn [Goals.goal_pk Goals.current_amount Goals.target_amount Goals.goal_status
           Goals.completion_date tables Goals.goals Goals.contributions].
    do 3 (split; [reflexivity|]).
    split; [split; [intros H; right; exact H|intros [H|H]; [lia|exact H]]|].
    split; [intros _; split; reflexivity|]. split; [intros H; lia|].
    split; [apply upsert_elem|].
    split; [eexists; split; [reflexivity|split; reflexivity]|].
    unfold Goals.contributed. cbn [Goals.contributions].
    rewrite List.filter_app, map_app, sum_app_list.
    cbn [List.filter Goals.contribution_goal]. rewrite Nat.eqb_refl.
    cbn [map Goals.contribution_amount]. rewrite sum_cons.
    change (Decimal.sum []) with 0. fold t. lia.
Qed.

Lemma add_contribution_records_witness :
  exists self' env',
    Goals.add_contribution Sample.march5 Sample.holiday 15000 "bonus"
      Sample.goal_env = (Returned self', env') /\
    Goals.current_amount self' = 105000 /\
    Goals.goal_status self' = Goals.GoalCompleted /\
    Goals.contributed 1 (tables env') = 15000.
Proof.
  destruct (add_contribution_records Sample.march5 Sample.holiday 15000 "bonus"
              Sample.goal_env)
    as (self' & env' & Hrun & _ & Hcur & _ & Hdone & _ & _ & _ & _ & Hinv);
    [reflexivity..|].
  exists self', env'. split; [exact Hrun|]. split; [exact Hcur|].
  split; [apply Hdone; left; vm_compute; discriminate|].
  rewrite Hcur in Hinv.
  change (Goals.goal_pk Sample.holiday) with 1%nat in Hinv.
  change (Goals.contributed 1 (tables Sample.goal_env)) with 0 in Hinv.
  change (Goals.current_amount Sample.holiday) with 90000 in Hinv.
  lia.
Defined.






(** * The constraints of the table of splits along the calls *)

Lemma for_each_keeps {A} (P : Env Tables -> Prop) (body : A -> M Tables unit) l :
  (forall x env, P env -> P (snd (body x env))) ->
  forall env, P env -> P (snd (for_each l body env)).
Proof.
  intros Hbody. induction l as [|x l IH]; intros env HP; [exact HP|].
  simpl. unfold bind. pose proof (Hbody x env HP) as Hx.
  destruct (body x env) as [[[]|e] env1]; cbn [snd] in *; [|exact Hx].
  apply IH. exact Hx.
Qed.

Lemma get_or_create_well_formed pk m amt sh env :
  splits_well_formed (tables env) ->
  splits_well_formed (tables (snd (SharedExpenseSplit_get_or_create pk m amt sh env))).
Proof.
  intros (Hu & Hk & Hi).
  destruct (get_or_create_unique pk m amt sh env Hu)
    as [(s & _ & _ & ->)|[Hno ->]]; cbn [snd]; [repeat split; assumption|].
  cbn [tables]. unfold splits_well_formed, unique_pairs, unique_split_pks,
    split_keys_issued in *. cbn [splits split_seq set_splits].
  rewrite !map_app. cbn [map split_pair split_pk split_expense split_member].
  split; [|split].
  - apply NoDup_app. split; [exact Hu|]. split; [|apply NoDup_singleton].
    intros p Hp Hp'. apply list_elem_of_singleton in Hp'. subst p.
    apply existsb_same_pair in Hp. cbn in Hp. congruence.
  - apply NoDup_app. split; [exact Hk|]. split; [|apply NoDup_singleton].
    intros k Hin Hk'. apply list_elem_of_singleton in Hk'. subst k.
    apply list_elem_of_In, in_map_iff in Hin as (s & Hs & Hin).
    rewrite Forall_forall in Hi. specialize (Hi s (proj2 (list_elem_of_In _ _) Hin)).
    lia.
  - apply Forall_app. split.
    + eapply Forall_impl; [exact Hi|]. intros s Hs. cbn beta in *. lia.
    + constructor; [cbn; lia|constructor].
Qed.

Lemma create_equal_splits_well_formed self env :
  splits_well_formed (tables env) ->
  splits_well_formed (tables (snd (create_equal_splits self env))).
Proof.
  intros Hwf. unfold create_equal_splits, bind at 1, query. unfold bind at 1.
  unfold truediv.
  destruct (Z.of_nat _ =? 0); [destruct (_ =? 0); exact Hwf|].
  unfold ret at 1.
  apply (for_each_keeps (fun e => splits_well_formed (tables e))); [|exact Hwf].
  intros m env0 H0. destruct (expense_pk self) as [k|]; [|exact H0].
  unfold bind.
  pose proof (get_or_create_well_formed k (member_pk m) (Decimal.div_quantize
    (expense_amount self) (Z.of_nat (length (active_members (expense_ledger self)
    (tables env))))) 1%nat env0 H0) as H.
  destruct (SharedExpenseSplit_get_or_create _ _ _ _ env0) as [[r|e] env1];
    exact H.
Qed.

Lemma SharedExpense_save_well_formed self env :
  splits_well_formed (tables env) ->
  splits_well_formed (tables (snd (SharedExpense_save self env))).
Proof.
  intros Hwf. unfold SharedExpense_save, bind at 1.
  assert (H0 : splits_well_formed (tables (snd (Model_save self env)))).
  { unfold Model_save. destruct (expense_pk self); exact Hwf. }
  destruct (Model_save self env) as [[self'|e] env1]; cbn [snd] in *; [|exact H0].
  destruct (_ && is_equal self'); [|exact H0].
  unfold bind. pose proof (create_equal_splits_well_formed self' env1 H0) as H1.
  destruct (create_equal_splits self' env1) as [[[]|e] env2]; exact H1.
Qed.

(** A rewriting of stored rows into themselves settled keeps the
    constraints. *)
Lemma settling_well_formed t t' F :
  splits t' = map F (splits t) -> split_seq t' = split_seq t ->
  (forall y, y ∈ splits t ->
             F y = y \/ exists now method, F y = settled_row y now method) ->
  splits_well_formed t -> splits_well_formed t'.
Proof.
  intros Hs Hq HF (Hu & Hk & Hi).
  assert (Hsame : forall (g : SharedExpenseSplit -> nat * nat * nat),
            (forall y now method, g (settled_row y now method) = g y) ->
            map g (map F (splits t)) = map g (splits t)).
  { intros g Hg. rewrite map_map. apply map_ext_in. intros y Hy.
    destruct (HF y (proj2 (list_elem_of_In _ _) Hy)) as [->|(now & method & ->)];
      [reflexivity|apply Hg]. }
  pose proof (Hsame (fun s => (split_pk s, split_expense s, split_member s))
                (fun _ _ _ => eq_refl)) as Hall.
  assert (Hpairs : map split_pair (map F (splits t)) = map split_pair (splits t)).
  { apply (f_equal (map (fun x : nat * nat * nat => (snd (fst x), snd x)))) in Hall.
    rewrite !map_map in Hall. rewrite map_map. exact Hall. }
  assert (Hpks : map split_pk (map F (splits t)) = map split_pk (splits t)).
  { apply (f_equal (map (fun x : nat * nat * nat => fst (fst x)))) in Hall.
    rewrite !map_map in Hall. rewrite map_map. exact Hall. }
  unfold splits_well_formed, unique_pairs, unique_split_pks, split_keys_issued.
  rewrite Hs, Hq, Hpairs, Hpks. split; [exact Hu|]. split; [exact Hk|].
  apply Forall_forall. intros s' Hs'.
  apply list_elem_of_In, in_map_iff in Hs' as (y & <- & Hy).
  unfold split_keys_issued in Hi. rewrite Forall_forall in Hi. specialize (Hi y (proj2 (list_elem_of_In _ _) Hy)).
  destruct (HF y (proj2 (list_elem_of_In _ _) Hy)) as [->|(now & method & ->)];
    exact Hi.
Qed.

(** X18.  The constraints of the table of splits hold along the calls:
    from tables where every (expense, member) pair has at most one split,
    split keys are distinct and were issued by the sequence, any sequence
    of [save], [create_equal_splits], [settle], [confirm_payment],
    [accept] and [decline], each on an instance read from its table and
    whether it returns or raises, leads to tables with the same
    properties. *)
Theorem splits_stay_well_formed env env' :
  steps env env' ->
  splits_well_formed (tables env) -> splits_well_formed (tables env').
Proof.
  intros Hsteps. induction Hsteps as [env|env op env1 env2 Hstep _ IH]; [auto|].
  intros Hwf. apply IH. clear IH. destruct Hstep as [env op Hload].
  destruct op as [e|e|s method|p u|i u|i]; cbn [perform loaded] in *.
  - unfold bind. pose proof (SharedExpense_save_well_formed e env Hwf) as H.
    destruct (SharedExpense_save e env) as [[r|x] env1]; exact H.
  - apply create_equal_splits_well_formed. exact Hwf.
  - rewrite settle_eq. cbn [snd tables].
    set (now := clock env (ticks env)).
    apply (settling_well_formed (tables env) _
             (fun y => if Nat.eqb (split_pk y) (split_pk (settled_row s now method))
                       then settled_row s now method else y)); [| |  |exact Hwf].
    + cbn [splits set_splits]. apply upsert_present.
      change (split_pk (settled_row s now method)) with (split_pk s).
      apply list_elem_of_In, in_map, list_elem_of_In. exact Hload.
    + reflexivity.
    + intros y Hy. cbn [split_pk settled_row].
      destruct (Nat.eqb_spec (split_pk y) (split_pk s)) as [Heq|]; [|left; reflexivity].
      right. destruct Hwf as (_ & Hk & _).
      rewrite (NoDup_map_inj_on split_pk _ s y Hk Hload Hy (eq_sym Heq)). eauto.
  - destruct (confirm_payment_effect env p u) as (F & Hrun & HF).
    cbv zeta in Hrun, HF. rewrite Hrun. cbn [snd tables].
    apply (settling_well_formed (tables env) _ F); [reflexivity|reflexivity| |exact Hwf].
    intros y Hy. destruct (HF y) as (_ & [Hid|(s & i & Hs & Hpk & _ & _ & HFy)] & _).
    + left. exact Hid.
    + right. destruct Hwf as (_ & Hk & _).
      rewrite (NoDup_map_inj_on split_pk _ s y Hk Hs Hy Hpk) in HFy. eauto.
  - unfold bind. rewrite accept_cases. cbv zeta.
    destruct (is_pending i); [|exact Hwf].
    destruct (_ <=? _); [|exact Hwf].
    destruct (is_member _ _ _); exact Hwf.
  - unfold bind. rewrite decline_cases.
    destruct (is_pending i); exact Hwf.
Qed.

Lemma splits_stay_well_formed_witness :
  splits_well_formed
    (tables (snd (confirm_payment Sample.bob_pays 11
       (snd (perform (OpExpenseSave Sample.taxi) Sample.with_payment))))).
Proof.
  apply (splits_stay_well_formed Sample.with_payment).
  - eapply steps_step.
    + apply (step_perform Sample.with_payment (OpExpenseSave Sample.taxi)).
      left. reflexivity.
    + eapply steps_step; [|apply steps_refl].
      apply (step_perform _ (OpConfirmPayment Sample.bob_pays 11)).
      vm_compute. left.
  - unfold splits_well_formed, unique_pairs, unique_split_pks, split_keys_issued.
    split; [compute_done|]. split; [compute_done|].
    vm_compute. repeat constructor.
Defined.
